(** * CopyCraft: prompt assembly and form state

    A shallow embedding of [types.ts], [constants.ts] (the default brands),
    [services/geminiService.ts] and the state handlers of [App.tsx].

    JavaScript strings are modelled as [string]; a TypeScript string enum is
    an inductive type together with the runtime string each member erases
    to; an optional field is an [option]; React state is a record that the
    handlers transform, and the effects of the asynchronous handler
    (console, alert, scrolling) are collected in a trace. *)

From Stdlib Require Import String Ascii List Bool Arith Lia.
Import ListNotations.
Open Scope string_scope.
Open Scope bool_scope.

(* ================================================================= *)
(** ** JavaScript strings *)

Module JS.

(** The line feed that separates the lines of a template literal. *)
Definition LF : string := String "010"%char EmptyString.

(** A multi-line literal: its lines joined by line feeds. *)
Definition lines (ls : list string) : string := String.concat LF ls.

(** [s.includes(t)]. *)
Fixpoint includes (s t : string) : bool :=
  prefix t s ||
  match s with
  | EmptyString => false
  | String _ s' => includes s' t
  end.

(** [s.endsWith(t)], for a one-character [t]. *)
Fixpoint endsWithChar (s : string) (c : ascii) : bool :=
  match s with
  | EmptyString => false
  | String d EmptyString => Ascii.eqb d c
  | String _ s' => endsWithChar s' c
  end.

(** Truthiness of a string: every string but the empty one. *)
Definition truthy (s : string) : bool := negb (s =? "").

(** Truthiness of [string | undefined] and [string | null]. *)
Definition truthy_opt (o : option string) : bool :=
  match o with
  | Some s => truthy s
  | None => false
  end.

(** [a || d] where [a] is a possibly absent string and [d] a string. *)
Definition or_else (a : option string) (d : string) : string :=
  match a with
  | Some s => if truthy s then s else d
  | None => d
  end.

(** [a === b] for [a : string | null] and [b : string]. *)
Definition strict_eq (a : option string) (b : string) : bool :=
  match a with
  | Some s => s =? b
  | None => false
  end.

(** [Object.is] on two values of type [string | null]. *)
Definition same_value (a b : option string) : bool :=
  match a, b with
  | Some s, Some t => s =? t
  | None, None => true
  | _, _ => false
  end.

End JS.

(* ================================================================= *)
(** ** types.ts *)

Inductive Language := EN | MY | TH.

Inductive Framework :=
  AIDA | PAS | BAB | FAB | QUEST | FOUR_P | PASTOR | FREESTYLE.

Inductive ContentPillar :=
  EDUCATIONAL | PROMOTIONAL | INSPIRATIONAL | ENTERTAINMENT | BEHIND_SCENES
| COMMUNITY.

Inductive Tone := PROFESSIONAL | FRIENDLY | URGENT | WITTY | EMOTIONAL | LUXURY.

(** The string each enum member is at run time. *)
Definition Language_value (l : Language) : string :=
  match l with EN => "en" | MY => "my" | TH => "th" end.

Definition Framework_value (f : Framework) : string :=
  match f with
  | AIDA => "AIDA" | PAS => "PAS" | BAB => "BAB" | FAB => "FAB"
  | QUEST => "QUEST" | FOUR_P => "FOUR_P" | PASTOR => "PASTOR"
  | FREESTYLE => "FREESTYLE"
  end.

Definition ContentPillar_value (p : ContentPillar) : string :=
  match p with
  | EDUCATIONAL => "Educational" | PROMOTIONAL => "Promotional"
  | INSPIRATIONAL => "Inspirational" | ENTERTAINMENT => "Entertainment"
  | BEHIND_SCENES => "BehindTheScenes" | COMMUNITY => "Community"
  end.

Definition Tone_value (t : Tone) : string :=
  match t with
  | PROFESSIONAL => "Professional" | FRIENDLY => "Friendly"
  | URGENT => "Urgent" | WITTY => "Witty" | EMOTIONAL => "Emotional"
  | LUXURY => "Luxury"
  end.

Definition all_Language : list Language := [EN; MY; TH].
Definition all_Framework : list Framework :=
  [AIDA; PAS; BAB; FAB; QUEST; FOUR_P; PASTOR; FREESTYLE].
Definition all_ContentPillar : list ContentPillar :=
  [EDUCATIONAL; PROMOTIONAL; INSPIRATIONAL; ENTERTAINMENT; BEHIND_SCENES;
   COMMUNITY].
Definition all_Tone : list Tone :=
  [PROFESSIONAL; FRIENDLY; URGENT; WITTY; EMOTIONAL; LUXURY].

Record BrandProfile := {
  id : string;
  name : string;
  industry : string;
  brandDescription : string;      (* [description]: brand story or boilerplate *)
  defaultTone : Tone;
  defaultAudience : string
}.

Record ContentRequest := {
  topic : string;
  description : string;
  framework : Framework;
  pillar : ContentPillar;
  language : Language;
  tone : Tone;
  targetAudience : option string;
  brand : option BrandProfile
}.

(* ================================================================= *)
(** ** services/geminiService.ts *)

Definition MODEL_NAME : string := "gemini-2.5-flash".

(** The [switch] statements compare the runtime string with each member in
    turn and fall through to [default]. *)

Definition getFrameworkInstruction (framework : string) : string :=
  if framework =? Framework_value AIDA then
    JS.lines ["Apply the AIDA framework:";
              "1. Attention: Grab attention with a hook.";
              "2. Interest: Build interest with facts/details.";
              "3. Desire: Create desire by showing benefits.";
              "4. Action: Clear Call to Action (CTA)."]
  else if framework =? Framework_value PAS then
    JS.lines ["Apply the PAS framework:";
              "1. Problem: Identify a pain point.";
              "2. Agitation: Agitate the pain, make it visceral.";
              "3. Solution: Present the product/service as the ultimate solution."]
  else if framework =? Framework_value BAB then
    JS.lines ["Apply the BAB framework:";
              "1. Before: Describe the current negative situation.";
              "2. After: Describe the ideal future situation.";
              "3. Bridge: Show how the product gets them from Before to After."]
  else if framework =? Framework_value FAB then
    JS.lines ["Apply the FAB framework:";
              "1. Features: What it does.";
              "2. Advantages: Why it helps.";
              "3. Benefits: The underlying emotional or tangible payoff."]
  else if framework =? Framework_value QUEST then
    JS.lines ["Apply the QUEST framework:";
              "1. Qualify the audience.";
              "2. Understand their problem.";
              "3. Educate them on the solution.";
              "4. Stimulate desire.";
              "5. Transition to action."]
  else if framework =? Framework_value FOUR_P then
    JS.lines ["Apply the 4 Ps framework:";
              "1. Promise: Make a bold claim or promise about what the product does.";
              "2. Picture: Paint a vivid visual picture of the user enjoying the benefits.";
              "3. Proof: Provide evidence (social proof, facts, logic) that the promise is true.";
              "4. Push: A strong call to action."]
  else if framework =? Framework_value PASTOR then
    JS.lines ["Apply the PASTOR framework:";
              "1. Problem: Describe the problem.";
              "2. Amplify: Amplify the consequences of not solving it.";
              "3. Story: Tell a story related to the solution.";
              "4. Transformation: Describe the transformation.";
              "5. Offer: Describe exactly what you are offering.";
              "6. Response: Ask for a response (CTA)."]
  else if framework =? Framework_value FREESTYLE then
    "Create engaging, high-quality content optimized for social media or blogs. Use short paragraphs, emojis where appropriate, and a compelling structure."
  else "".

Definition getLanguageInstruction (language : string) : string :=
  if language =? Language_value MY then
    "Write the response in Myanmar (Burmese) language. Ensure the font encoding is standard Unicode. Use natural, flowing Burmese appropriate for marketing. Do NOT just transliterate English idioms, adapt them culturally."
  else if language =? Language_value TH then
    "Write the response in Thai language. Use polite and persuasive Thai appropriate for marketing contexts."
  else (* case Language.EN: default: *)
    "Write the response in English.".

Definition getPillarInstruction (pillar : string) : string :=
  if pillar =? ContentPillar_value EDUCATIONAL then
    "Focus on teaching the audience something valuable. Use a helpful, authoritative voice. Include tips or steps."
  else if pillar =? ContentPillar_value PROMOTIONAL then
    "Focus on conversion and sales. Highlight offers, scarcity, and value proposition."
  else if pillar =? ContentPillar_value INSPIRATIONAL then
    "Focus on storytelling and motivation. Connect on an emotional level."
  else if pillar =? ContentPillar_value ENTERTAINMENT then
    "Focus on engagement. Be lighthearted, relatable, or humorous."
  else if pillar =? ContentPillar_value BEHIND_SCENES then
    "Focus on authenticity. Show the process, the people, or the 'why' behind the product."
  else if pillar =? ContentPillar_value COMMUNITY then
    "Focus on social proof and belonging. Highlight user experiences or testimonials."
  else "".

Definition systemInstruction : string :=
  JS.lines ["You are a world-class copywriter and content strategist.";
            "Your goal is to write persuasive, high-converting marketing copy.";
            "You are fluent in English, Myanmar, and Thai.";
            "Always format the output using Markdown (headers, bullet points, bold text).";
            "Do not explain the framework, just use it to structure the content."].

(** [brand ? `...` : `BRAND IDENTITY: Generic / Not specified`] *)
Definition brandContext (brand : option BrandProfile) : string :=
  match brand with
  | Some b =>
      JS.lines ["";
                "    BRAND IDENTITY:";
                "    - Brand Name: " ++ name b;
                "    - Industry: " ++ industry b;
                "    - Brand Story/Context: " ++ brandDescription b;
                "    - Standard Audience: " ++ defaultAudience b;
                "    "]
  | None => "BRAND IDENTITY: Generic / Not specified"
  end.

(** [targetAudience || brand?.defaultAudience || "General Audience"] *)
Definition resolvedAudience
    (targetAudience : option string) (brand : option BrandProfile) : string :=
  JS.or_else targetAudience
    (JS.or_else (option_map defaultAudience brand) "General Audience").

(** The template literal bound to [prompt], over the destructured fields of
    the request as they are at run time. *)
Definition promptText
    (topic description framework language tone : string)
    (targetAudience : option string) (pillar : string)
    (brand : option BrandProfile) : string :=
  JS.lines
    ["";
     "  " ++ brandContext brand;
     "";
     "  CONTENT REQUEST:";
     "  Product/Topic: " ++ topic;
     "  Additional Context/Details: " ++ description;
     "  Target Audience: " ++ resolvedAudience targetAudience brand;
     "  Tone of Voice: " ++ tone;
     "  Content Pillar/Theme: " ++ pillar;
     "  ";
     "  TASK:";
     "  " ++ getFrameworkInstruction framework;
     "  ";
     "  CONTENT FOCUS (Pillar):";
     "  " ++ getPillarInstruction pillar;
     "  ";
     "  LANGUAGE REQUIREMENT:";
     "  " ++ getLanguageInstruction language;
     "  ";
     "  IMPORTANT RULES:";
     "  - Make it creative and engaging.";
     "  - If using Myanmar language, ensure it reads naturally to native speakers, not like a machine translation.";
     "  - Use appropriate emojis for the " ++ tone ++ " tone and " ++ pillar ++ " theme.";
     "  - Ensure the content aligns with the Brand Identity provided above.";
     "  "].

(** The prompt [generateCopy] assembles for a request. *)
Definition prompt (request : ContentRequest) : string :=
  promptText (topic request) (description request)
             (Framework_value (framework request))
             (Language_value (language request))
             (Tone_value (tone request))
             (targetAudience request)
             (ContentPillar_value (pillar request))
             (brand request).

(* ================================================================= *)
(** ** Effects of the asynchronous code *)

(** A thrown JavaScript value: what was thrown is only ever printed. *)
Inductive JsError := Error (message : string).

Definition message (e : JsError) : string := let 'Error m := e in m.

Inductive Effect :=
| ConsoleError (args : list string)       (* console.error(...args) *)
| Alert (text : string)                   (* alert(text) *)
| ScrollToResult (delayMs : nat).         (* setTimeout(scrollIntoView, ms) *)

Inductive Completion (A : Type) :=
| Normal (a : A)
| Throw (e : JsError).
Arguments Normal {A} a.
Arguments Throw {A} e.

(** The request object handed to [ai.models.generateContent].  The sampling
    parameters 0.75 and 0.95 are kept in hundredths. *)
Record GenerateContentConfig := {
  cfg_systemInstruction : string;
  cfg_temperature_pct : nat;
  cfg_topK : nat;
  cfg_topP_pct : nat
}.

Record GenerateContentParameters := {
  model : string;
  contents : string;
  config : GenerateContentConfig
}.

(** [response.text] is a string or [undefined]. *)
Record GenerateContentResponse := { text : option string }.

Module Gemini.
Section Client.

(** The hosted endpoint: it answers or throws. *)
Variable generateContent :
  GenerateContentParameters -> Completion GenerateContentResponse.

Definition fallbackText : string :=
  "Sorry, I couldn't generate the content at this time.".

Definition failureMessage : string :=
  "Failed to generate content. Please check your connection or API key.".

Definition parametersFor (request : ContentRequest)
  : GenerateContentParameters :=
  {| model := MODEL_NAME;
     contents := prompt request;
     config := {| cfg_systemInstruction := systemInstruction;
                  cfg_temperature_pct := 75;
                  cfg_topK := 40;
                  cfg_topP_pct := 95 |} |}.

(** [generateCopy]: the trace of what it prints, and how it completes. *)
Definition generateCopy (request : ContentRequest)
  : list Effect * Completion string :=
  match generateContent (parametersFor request) with
  | Normal response =>
      ([], Normal (JS.or_else (text response) fallbackText))
  | Throw error =>
      ([ConsoleError ["Gemini API Error:"; message error]],
       Throw (Error failureMessage))
  end.

End Client.
End Gemini.

(* ================================================================= *)
(** ** constants.ts *)

Definition DEFAULT_BRANDS : list BrandProfile :=
  [ {| id := "demo-1";
       name := "TechNova";
       industry := "Consumer Electronics";
       brandDescription :=
         "Innovative gadgets for the modern lifestyle. High-tech meets minimal design.";
       defaultTone := WITTY;
       defaultAudience := "Tech enthusiasts, Early adopters, Ages 18-35" |};
    {| id := "demo-2";
       name := "GreenLeaf Organics";
       industry := "Health & Wellness";
       brandDescription :=
         "100% organic supplements and superfoods sourced sustainably.";
       defaultTone := FRIENDLY;
       defaultAudience :=
         "Health-conscious individuals, Eco-friendly consumers" |} ].

(* ================================================================= *)
(** ** App.tsx: the component state and its handlers *)

Record AppState := {
  isDarkMode : bool;
  loading : bool;
  generatedContent : option string;
  brands : list BrandProfile;
  selectedBrandId : option string;
  formData : ContentRequest
}.

Definition initialState : AppState :=
  {| isDarkMode := false;
     loading := false;
     generatedContent := None;
     brands := DEFAULT_BRANDS;
     selectedBrandId := None;
     formData := {| topic := "";
                    description := "";
                    framework := AIDA;
                    pillar := PROMOTIONAL;
                    language := EN;
                    tone := PROFESSIONAL;
                    targetAudience := Some "";
                    brand := None |} |}.

(** The state setters. *)
Definition setIsDarkMode (v : bool) (s : AppState) : AppState :=
  {| isDarkMode := v; loading := loading s;
     generatedContent := generatedContent s; brands := brands s;
     selectedBrandId := selectedBrandId s; formData := formData s |}.

Definition setLoading (v : bool) (s : AppState) : AppState :=
  {| isDarkMode := isDarkMode s; loading := v;
     generatedContent := generatedContent s; brands := brands s;
     selectedBrandId := selectedBrandId s; formData := formData s |}.

Definition setGeneratedContent (v : option string) (s : AppState) : AppState :=
  {| isDarkMode := isDarkMode s; loading := loading s;
     generatedContent := v; brands := brands s;
     selectedBrandId := selectedBrandId s; formData := formData s |}.

Definition setBrands (f : list BrandProfile -> list BrandProfile)
    (s : AppState) : AppState :=
  {| isDarkMode := isDarkMode s; loading := loading s;
     generatedContent := generatedContent s; brands := f (brands s);
     selectedBrandId := selectedBrandId s; formData := formData s |}.

Definition setSelectedBrandId (v : option string) (s : AppState) : AppState :=
  {| isDarkMode := isDarkMode s; loading := loading s;
     generatedContent := generatedContent s; brands := brands s;
     selectedBrandId := v; formData := formData s |}.

Definition setFormData (f : ContentRequest -> ContentRequest)
    (s : AppState) : AppState :=
  {| isDarkMode := isDarkMode s; loading := loading s;
     generatedContent := generatedContent s; brands := brands s;
     selectedBrandId := selectedBrandId s; formData := f (formData s) |}.

(** [brands.find(b => b.id === selectedBrandId)] *)
Definition findBrand (brandId : string) (bs : list BrandProfile)
  : option BrandProfile :=
  find (fun b => id b =? brandId) bs.

(** The body of the effect with dependencies [[selectedBrandId, brands]]. *)
Definition brandEffect (s : AppState) : AppState :=
  match selectedBrandId s with
  | Some sel =>
      if JS.truthy sel then
        match findBrand sel (brands s) with
        | Some b =>
            setFormData (fun prev =>
              {| topic := topic prev;
                 description := description prev;
                 framework := framework prev;
                 pillar := pillar prev;
                 language := language prev;
                 tone := defaultTone b;
                 targetAudience := Some (defaultAudience b);
                 brand := Some b |}) s
        | None => s
        end
      else
        setFormData (fun prev =>
          {| topic := topic prev; description := description prev;
             framework := framework prev; pillar := pillar prev;
             language := language prev; tone := tone prev;
             targetAudience := targetAudience prev; brand := None |}) s
  | None =>
      setFormData (fun prev =>
        {| topic := topic prev; description := description prev;
           framework := framework prev; pillar := pillar prev;
           language := language prev; tone := tone prev;
           targetAudience := targetAudience prev; brand := None |}) s
  end.

Definition handleAddBrand (newBrand : BrandProfile) (s : AppState) : AppState :=
  setSelectedBrandId (Some (id newBrand))
    (setBrands (fun prev => (prev ++ [newBrand])%list) s).

Definition handleDeleteBrand (brandId : string) (s : AppState) : AppState :=
  let s' := setBrands (filter (fun b => negb (id b =? brandId))) s in
  if JS.strict_eq (selectedBrandId s) brandId
  then setSelectedBrandId None s'
  else s'.

Definition handleClear (s : AppState) : AppState :=
  setFormData (fun prev =>
    {| topic := "";
       description := "";
       framework := framework prev;
       pillar := pillar prev;
       language := language prev;
       tone := tone prev;
       targetAudience :=
         if JS.truthy_opt (selectedBrandId s)
         then targetAudience prev
         else Some "";
       brand := brand prev |})
    (setGeneratedContent None s).

(** [handleGenerate], run to completion with the form data the handler
    closed over; it returns what it printed, alerted and scheduled. *)
Definition handleGenerate
    (generateContent :
       GenerateContentParameters -> Completion GenerateContentResponse)
    (s : AppState) : list Effect * AppState :=
  let s1 := setGeneratedContent None (setLoading true s) in
  let '(printed, outcome) := Gemini.generateCopy generateContent (formData s) in
  match outcome with
  | Normal result =>
      ((printed ++ [ScrollToResult 100])%list,
       setLoading false (setGeneratedContent (Some result) s1))
  | Throw error =>
      ((printed ++ [ConsoleError [message error];
                   Alert "Something went wrong. Please try again."])%list,
       setLoading false s1)
  end.

(** What the user can do to the brand registry and the form. *)
Inductive Event :=
| SelectBrand (brandId : option string)       (* onSelectBrand *)
| AddBrand (newBrand : BrandProfile)          (* onAddBrand *)
| DeleteBrand (brandId : string)              (* onDeleteBrand *)
| SelectFramework (fw : Framework)            (* FrameworkSelector onSelect *)
| ChangeForm (request : ContentRequest)       (* InputForm onChange *)
| Clear.                                      (* OutputDisplay onClear *)

Definition handle (e : Event) (s : AppState) : AppState :=
  match e with
  | SelectBrand brandId => setSelectedBrandId brandId s
  | AddBrand newBrand => handleAddBrand newBrand s
  | DeleteBrand brandId => handleDeleteBrand brandId s
  | SelectFramework fw =>
      setFormData (fun prev =>
        {| topic := topic prev; description := description prev;
           framework := fw; pillar := pillar prev;
           language := language prev; tone := tone prev;
           targetAudience := targetAudience prev; brand := brand prev |}) s
  | ChangeForm request => setFormData (fun _ => request) s
  | Clear => handleClear s
  end.

(** Whether the handler of an event leaves a new array in [brands]:
    [filter] and the spread both allocate one, whatever they keep. *)
Definition replacesBrands (e : Event) : bool :=
  match e with
  | AddBrand _ | DeleteBrand _ => true
  | _ => false
  end.

(** One state update: the handler, then the brand effect when one of its
    dependencies is no longer the same value. *)
Definition update (e : Event) (s : AppState) : AppState :=
  let s' := handle e s in
  if replacesBrands e
     || negb (JS.same_value (selectedBrandId s) (selectedBrandId s'))
  then brandEffect s'
  else s'.

(* ================================================================= *)
(** ** The prompt as headers and slots *)

(** The prompt read as a sequence of fixed headers, each followed by one
    slot that the request fills. *)
Fixpoint render (hs : list (string * string)) : string :=
  match hs with
  | [] => ""
  | (h, u) :: hs' => h ++ u ++ render hs'
  end.

(** Every header opens a new line that starts with a blank. *)
Definition SEP : string := JS.LF ++ " ".

Definition headers (hasBrand : bool) (tone pillar : string) : list string :=
  List.app
    (if hasBrand then
       [JS.LF ++ "  " ++ JS.LF ++ "    BRAND IDENTITY:" ++ JS.LF
          ++ "    - Brand Name: ";
        JS.LF ++ "    - Industry: ";
        JS.LF ++ "    - Brand Story/Context: ";
        JS.LF ++ "    - Standard Audience: ";
        JS.LF ++ "    " ++ JS.LF ++ JS.LF ++ "  CONTENT REQUEST:" ++ JS.LF
          ++ "  Product/Topic: "]
     else
       [JS.LF ++ "  BRAND IDENTITY: Generic / Not specified" ++ JS.LF ++ JS.LF
          ++ "  CONTENT REQUEST:" ++ JS.LF ++ "  Product/Topic: "])
    [JS.LF ++ "  Additional Context/Details: ";
     JS.LF ++ "  Target Audience: ";
     JS.LF ++ "  Tone of Voice: ";
     JS.LF ++ "  Content Pillar/Theme: ";
     JS.LF ++ "  " ++ JS.LF ++ "  TASK:" ++ JS.LF ++ "  ";
     JS.LF ++ "  " ++ JS.LF ++ "  CONTENT FOCUS (Pillar):" ++ JS.LF ++ "  ";
     JS.LF ++ "  " ++ JS.LF ++ "  LANGUAGE REQUIREMENT:" ++ JS.LF ++ "  ";
     JS.LF ++ "  " ++ JS.LF ++ "  IMPORTANT RULES:" ++ JS.LF
       ++ "  - Make it creative and engaging." ++ JS.LF
       ++ "  - If using Myanmar language, ensure it reads naturally to native speakers, not like a machine translation."
       ++ JS.LF
       ++ "  - Use appropriate emojis for the " ++ tone ++ " tone and "
       ++ pillar ++ " theme." ++ JS.LF
       ++ "  - Ensure the content aligns with the Brand Identity provided above."
       ++ JS.LF ++ "  "].

(** The values that fill the slots, in the order of the headers. *)
Definition slots
    (topic description framework language tone : string)
    (targetAudience : option string) (pillar : string)
    (brand : option BrandProfile) : list string :=
  List.app
    match brand with
    | Some b => [name b; industry b; brandDescription b; defaultAudience b]
    | None => []
    end
    [topic;
     description;
     resolvedAudience targetAudience brand;
     tone;
     pillar;
     getFrameworkInstruction framework;
     getPillarInstruction pillar;
     getLanguageInstruction language;
     ""].

Definition hasBrand (brand : option BrandProfile) : bool :=
  match brand with Some _ => true | None => false end.

(** The text a request carries that the user typed or a brand supplies. *)
Definition freeText (request : ContentRequest) : list string :=
  ([topic request; description request]
   ++ match targetAudience request with Some a => [a] | None => [] end
   ++ match brand request with
      | Some b => [name b; industry b; brandDescription b; defaultAudience b]
      | None => []
      end)%list.

(** Whether some free text of the request contains [f]. *)
Definition mentions (request : ContentRequest) (f : string) : bool :=
  existsb (fun u => JS.includes u f) (freeText request).

(** An occurrence of [f] that starts inside [h] and runs past its end. *)
Fixpoint overhangs (h f : string) : bool :=
  match h with
  | EmptyString => false
  | String _ h' =>
      (prefix h f && Nat.ltb (String.length h) (String.length f)) || overhangs h' f
  end.

(** [f] cannot start inside the header [h]. *)
Definition clear_of (f h : string) : bool :=
  negb (JS.includes h f) && negb (overhangs h f).

(** [f] cannot run from a slot into the header that follows it. *)
Definition sepFree (f : string) : bool :=
  negb (JS.includes f SEP) && negb (JS.endsWithChar f "010"%char).

(** What makes [f] traceable in a prompt: it is not empty, cannot cross a
    header, and occurs in no header, enum value or fixed fallback. *)
Definition traceable (f : string) : bool :=
  negb (f =? "") && sepFree f
  && forallb (fun hb =>
       forallb (fun t =>
         forallb (fun p =>
           forallb (fun h => prefix SEP h && clear_of f h)
                   (headers hb (Tone_value t) (ContentPillar_value p)))
           all_ContentPillar)
         all_Tone)
       [true; false]
  && negb (JS.includes "General Audience" f)
  && forallb (fun t => negb (JS.includes (Tone_value t) f)) all_Tone
  && forallb (fun p => negb (JS.includes (ContentPillar_value p) f))
             all_ContentPillar.

(** An occurrence of [f] over the seam of [s1 ++ s2]. *)
Definition straddles (s1 s2 f : string) : Prop :=
  exists v u q,
    s1 = v ++ u /\ u <> "" /\ q <> "" /\ f = u ++ q /\ prefix q s2 = true.

(** The header and slot pairs of the prompt of a request. *)
Definition segments (request : ContentRequest) : list (string * string) :=
  combine
    (headers (hasBrand (brand request)) (Tone_value (tone request))
             (ContentPillar_value (pillar request)))
    (slots (topic request) (description request)
           (Framework_value (framework request))
           (Language_value (language request))
           (Tone_value (tone request))
           (targetAudience request)
           (ContentPillar_value (pillar request))
           (brand request)).

(** The instruction each request selects. *)
Definition frameworkInstruction (fw : Framework) : string :=
  getFrameworkInstruction (Framework_value fw).

Definition pillarInstruction (p : ContentPillar) : string :=
  getPillarInstruction (ContentPillar_value p).

Definition languageInstruction (l : Language) : string :=
  getLanguageInstruction (Language_value l).

(** The texts a trace shows in alert boxes. *)
Definition alerts (trace : list Effect) : list string :=
  flat_map (fun e => match e with Alert t => [t] | _ => [] end) trace.

(* ================================================================= *)
(** ** Sample requests *)

(** The request of the specification's example. *)
Definition earbudsRequest : ContentRequest :=
  {| topic := "Wireless Earbuds"; description := "";
     framework := PAS; pillar := PROMOTIONAL; language := EN; tone := WITTY;
     targetAudience := Some ""; brand := None |}.

(** Requests whose topic is itself one of the instruction texts. *)
Definition pastedFrameworkRequest : ContentRequest :=
  {| topic := frameworkInstruction PAS; description := "";
     framework := AIDA; pillar := PROMOTIONAL; language := EN;
     tone := PROFESSIONAL; targetAudience := Some ""; brand := None |}.

Definition pastedPillarRequest : ContentRequest :=
  {| topic := pillarInstruction EDUCATIONAL; description := "";
     framework := AIDA; pillar := PROMOTIONAL; language := EN;
     tone := PROFESSIONAL; targetAudience := Some ""; brand := None |}.


Definition techNova : BrandProfile :=
  {| id := "demo-1"; name := "TechNova"; industry := "Consumer Electronics";
     brandDescription :=
       "Innovative gadgets for the modern lifestyle. High-tech meets minimal design.";
     defaultTone := WITTY;
     defaultAudience := "Tech enthusiasts, Early adopters, Ages 18-35" |}.

Definition brandedRequest : ContentRequest :=
  {| topic := "Wireless Earbuds"; description := "";
     framework := PAS; pillar := PROMOTIONAL; language := EN; tone := WITTY;
     targetAudience := Some ""; brand := Some techNova |}.

Definition explicitAudienceRequest : ContentRequest :=
  {| topic := "Wireless Earbuds"; description := "";
     framework := PAS; pillar := PROMOTIONAL; language := EN; tone := WITTY;
     targetAudience := Some "Commuters"; brand := Some techNova |}.

(** An endpoint that is down, and endpoints that answer. *)
Definition offline (_ : GenerateContentParameters)
  : Completion GenerateContentResponse :=
  Throw (Error "fetch failed").

Definition answering (t : option string) (_ : GenerateContentParameters)
  : Completion GenerateContentResponse :=
  Normal {| text := t |}.

(** The first default brand selected, then deleted. *)
Definition techNovaSelected : AppState :=
  update (SelectBrand (Some "demo-1")) initialState.

Definition techNovaDeleted : AppState :=
  update (DeleteBrand "demo-1") techNovaSelected.

(** A registry with a brand whose id is empty, and one with two brands of
    the same id. *)
Definition anonymousBrand : BrandProfile :=
  {| id := ""; name := "Nameless"; industry := "Retail";
     brandDescription := "A brand saved without an id.";
     defaultTone := LUXURY; defaultAudience := "Collectors" |}.

Definition twinBrand : BrandProfile :=
  {| id := "demo-1"; name := "TechNova Pro"; industry := "Enterprise IT";
     brandDescription := "The business line."; defaultTone := URGENT;
     defaultAudience := "IT managers" |}.

Definition withAnonymousBrand : AppState :=
  update (AddBrand anonymousBrand) initialState.

Definition withTwinBrand : AppState :=
  update (SelectBrand None) (update (AddBrand twinBrand) initialState).

(** The selected brand's tone replaced by hand in the form. *)
Definition toneEdited : AppState :=
  update (ChangeForm
            {| topic := ""; description := ""; framework := AIDA;
               pillar := PROMOTIONAL; language := EN; tone := LUXURY;
               targetAudience :=
                 Some "Tech enthusiasts, Early adopters, Ages 18-35";
               brand := Some techNova |})
         techNovaSelected.

(** States reached by selecting in the registries above. *)
Definition anonymousSelected : AppState :=
  update (SelectBrand (Some ""))
         (update (SelectBrand None) withAnonymousBrand).

Definition twinSelected : AppState :=
  update (SelectBrand (Some (id twinBrand))) withTwinBrand.

Definition reselected : AppState :=
  update (SelectBrand (Some "demo-1")) toneEdited.

(* ================================================================= *)
(** ** App.tsx: the halves of the asynchronous handler, and what is shown *)

(** [handleGenerate] up to its [await]: the two setters it calls first. *)
Definition generateStart (s : AppState) : AppState :=
  setGeneratedContent None (setLoading true s).

(** [handleGenerate] from its [await] on, run on the state the component has
    when the promise of [generateCopy] settles with [outcome]. *)
Definition generateSettle (outcome : Completion string) (s : AppState)
  : list Effect * AppState :=
  match outcome with
  | Normal result =>
      ([ScrollToResult 100],
       setLoading false (setGeneratedContent (Some result) s))
  | Throw error =>
      ([ConsoleError [message error];
        Alert "Something went wrong. Please try again."],
       setLoading false s)
  end.

(** [generatedContent ? <OutputDisplay ... /> : <placeholder>] *)
Definition showsOutput (s : AppState) : bool :=
  JS.truthy_opt (generatedContent s).

(** The [selectedBrand] prop of [InputForm]:
    [brands.find(b => b.id === selectedBrandId)]. *)
Definition selectedBrand (s : AppState) : option BrandProfile :=
  match selectedBrandId s with
  | Some sel => findBrand sel (brands s)
  | None => None
  end.

(** The brand the effect attaches for the selection of a state. *)
Definition attachedBrand (s : AppState) : option BrandProfile :=
  if JS.truthy_opt (selectedBrandId s) then selectedBrand s else None.

(** A sequence of state updates. *)
Fixpoint run (events : list Event) (s : AppState) : AppState :=
  match events with
  | [] => s
  | e :: events' => run events' (update e s)
  end.

(** Events of a user who selects only brands of the list and whose form
    edits keep the brand object of the request. *)
Definition offered (s : AppState) (e : Event) : Prop :=
  match e with
  | SelectBrand (Some sel) =>
      sel <> "" -> exists b, In b (brands s) /\ id b = sel
  | ChangeForm request => brand request = brand (formData s)
  | _ => True
  end.

Fixpoint admissible (events : list Event) (s : AppState) : Prop :=
  match events with
  | [] => True
  | e :: events' => offered s e /\ admissible events' (update e s)
  end.

(** The two texts that mark the brand block of a prompt. *)
Definition brandPlaceholder : string :=
  "BRAND IDENTITY: Generic / Not specified".

Definition brandNameLabel : string := "- Brand Name:".

(** [traceable], for the headers of prompts with or without a brand. *)
Definition traceableWith (hb : bool) (f : string) : bool :=
  negb (f =? "") && sepFree f
  && forallb (fun t =>
       forallb (fun p =>
         forallb (fun h => prefix SEP h && clear_of f h)
                 (headers hb (Tone_value t) (ContentPillar_value p)))
         all_ContentPillar)
       all_Tone
  && negb (JS.includes "General Audience" f)
  && forallb (fun t => negb (JS.includes (Tone_value t) f)) all_Tone
  && forallb (fun p => negb (JS.includes (ContentPillar_value p) f))
             all_ContentPillar
  && forallb (fun fw => negb (JS.includes (frameworkInstruction fw) f))
             all_Framework
  && forallb (fun p => negb (JS.includes (pillarInstruction p) f))
             all_ContentPillar
  && forallb (fun l => negb (JS.includes (languageInstruction l) f))
             all_Language.

(** Sample data for the properties below. *)
Definition studio : BrandProfile :=
  {| id := "brand-3"; name := "Studio Nine"; industry := "Design";
     brandDescription := "A small design studio."; defaultTone := EMOTIONAL;
     defaultAudience := "Founders" |}.

(* ================================================================= *)
(** ** Facts about strings *)

Module StringFacts.


Lemma append_assoc (a b c : string) : (a ++ b) ++ c = a ++ (b ++ c).
Proof. induction a as [|x a IH]; simpl; [reflexivity | now rewrite IH]. Qed.

Lemma append_nil_r (a : string) : a ++ "" = a.
Proof. induction a as [|x a IH]; simpl; [reflexivity | now rewrite IH]. Qed.

Lemma length_append (a b : string) :
  String.length (a ++ b) = String.length a + String.length b.
Proof. induction a as [|x a IH]; simpl; [reflexivity | now rewrite IH]. Qed.

Lemma prefix_cons (x y : ascii) (a b : string) :
  prefix (String x a) (String y b) = true <-> x = y /\ prefix a b = true.
Proof.
  simpl. destruct (ascii_dec x y) as [E|N].
  - split; [intros H; now split | now intros [_ H]].
  - split; [discriminate | intros [E _]; contradiction].
Qed.

Lemma prefix_append (a b : string) : prefix a (a ++ b) = true.
Proof.
  induction a as [|x a IH]; simpl.
  - now destruct b.
  - destruct (ascii_dec x x); [exact IH | contradiction].
Qed.

Lemma prefix_nil_r (a : string) : prefix a "" = true -> a = "".
Proof. destruct a; [reflexivity | discriminate]. Qed.

(** A prefix of [u ++ s] lies in [u] or covers [u] and goes on in [s]. *)
Lemma prefix_append_inv (u s f : string) :
  prefix f (u ++ s) = true ->
  prefix f u = true \/
  exists q, q <> "" /\ f = u ++ q /\ prefix q s = true.
Proof.
  revert f. induction u as [|x u IH]; intros f H.
  - destruct f as [|y f].
    + left. reflexivity.
    + right. exists (String y f). repeat split; [discriminate | exact H].
  - destruct f as [|y f].
    + left. reflexivity.
    + change (prefix (String y f) (String x (u ++ s)) = true) in H.
      apply prefix_cons in H. destruct H as [-> H].
      destruct (IH _ H) as [P | (q & Hq & -> & P)].
      * left. apply prefix_cons. now split.
      * right. exists q. repeat split; assumption.
Qed.

Lemma includes_unfold (s t : string) :
  JS.includes s t =
  prefix t s ||
  match s with EmptyString => false | String _ s' => JS.includes s' t end.
Proof. destruct s; reflexivity. Qed.

Lemma includes_cons (x : ascii) (s t : string) :
  JS.includes s t = true -> JS.includes (String x s) t = true.
Proof.
  intros H. rewrite includes_unfold. rewrite H. apply orb_true_r.
Qed.

Lemma includes_prefix (s t : string) :
  prefix t s = true -> JS.includes s t = true.
Proof. intros H. rewrite includes_unfold, H. reflexivity. Qed.

(** [t] occurs in any string written around it. *)
Lemma includes_intro (a t b : string) : JS.includes (a ++ t ++ b) t = true.
Proof.
  induction a as [|x a IH]; simpl append.
  - apply includes_prefix, prefix_append.
  - now apply includes_cons.
Qed.

Lemma includes_nil (f : string) : JS.includes "" f = true -> f = "".
Proof.
  simpl. rewrite orb_false_r. apply prefix_nil_r.
Qed.

Lemma includes_append_inv (s1 s2 f : string) :
  JS.includes (s1 ++ s2) f = true ->
  JS.includes s1 f = true \/ JS.includes s2 f = true \/ straddles s1 s2 f.
Proof.
  induction s1 as [|x s1 IH]; intros H.
  - right; left. exact H.
  - change (JS.includes (String x (s1 ++ s2)) f = true) in H.
    rewrite includes_unfold in H. apply orb_prop in H. destruct H as [H|H].
    + change (prefix f (String x s1 ++ s2) = true) in H.
      apply prefix_append_inv in H.
      destruct H as [P | (q & Hq & E & P)].
      * left. now apply includes_prefix.
      * right; right. exists "", (String x s1), q.
        repeat split; try assumption. discriminate.
    + destruct (IH H) as [I | [I | (v & u & q & E & Hu & Hq & Ef & P)]].
      * left. now apply includes_cons.
      * right; left. exact I.
      * right; right. exists (String x v), u, q.
        repeat split; try assumption. simpl. now rewrite E.
Qed.

Lemma straddles_overhangs (s1 s2 f : string) :
  straddles s1 s2 f -> overhangs s1 f = true.
Proof.
  intros (v & u & q & -> & Hu & Hq & -> & _).
  induction v as [|x v IH].
  - destruct u as [|y u]; [contradiction|].
    cbn [append overhangs]. apply orb_true_intro. left.
    apply andb_true_intro. split.
    + exact (prefix_append (String y u) q).
    + apply Nat.ltb_lt. simpl. rewrite length_append.
      destruct q; [contradiction | simpl; lia].
  - cbn [append overhangs]. rewrite IH. apply orb_true_r.
Qed.

Lemma endsWithChar_snoc (u : string) (c : ascii) :
  JS.endsWithChar (u ++ String c "") c = true.
Proof.
  induction u as [|x u IH]; simpl.
  - apply Ascii.eqb_refl.
  - rewrite IH. destruct (u ++ String c ""); [discriminate IH | reflexivity].
Qed.

(** A string that neither contains a line break followed by a blank nor
    ends in a line break cannot run into a header. *)
Lemma straddles_sep (s1 s2 f : string) :
  sepFree f = true -> s2 = "" \/ prefix SEP s2 = true ->
  ~ straddles s1 s2 f.
Proof.
  intros Hf Hs (v & u & q & _ & _ & Hq & -> & P).
  unfold sepFree in Hf. apply andb_prop in Hf. destruct Hf as [H1 H2].
  apply negb_true_iff in H1. apply negb_true_iff in H2.
  destruct Hs as [-> | Hs].
  - apply prefix_nil_r in P. contradiction.
  - change SEP with (String "010"%char (String " "%char "")) in *.
    destruct s2 as [|a s2]; [discriminate Hs|].
    apply prefix_cons in Hs. destruct Hs as [<- Hs].
    destruct s2 as [|b s2]; [discriminate Hs|].
    apply prefix_cons in Hs. destruct Hs as [<- _].
    destruct q as [|c q]; [contradiction|].
    apply prefix_cons in P. destruct P as [-> P].
    destruct q as [|d q].
    + rewrite endsWithChar_snoc in H2. discriminate.
    + apply prefix_cons in P. destruct P as [-> _].
      change (String "010"%char (String " "%char q))
        with (String "010"%char (String " "%char "") ++ q) in H1.
      rewrite includes_intro in H1. discriminate.
Qed.

(** An occurrence in [h ++ u ++ rest], where [rest] is empty or opens
    with a header, starts in [h], lies in [u] or lies in [rest]. *)
Lemma includes_block (h u rest f : string) :
  sepFree f = true -> rest = "" \/ prefix SEP rest = true ->
  JS.includes (h ++ u ++ rest) f = true ->
  clear_of f h = false \/ JS.includes u f = true
  \/ JS.includes rest f = true.
Proof.
  intros Hf Hr H.
  apply includes_append_inv in H. destruct H as [H | [H | H]].
  - left. unfold clear_of. now rewrite H.
  - apply includes_append_inv in H. destruct H as [H | [H | H]].
    + right; left. exact H.
    + right; right. exact H.
    + exfalso. exact (straddles_sep _ _ _ Hf Hr H).
  - left. unfold clear_of. rewrite (straddles_overhangs _ _ _ H).
    apply andb_false_r.
Qed.

Lemma prefix_append_l (a b c : string) :
  prefix a b = true -> prefix a (b ++ c) = true.
Proof.
  revert b. induction a as [|x a IH]; intros b H.
  - now destruct (b ++ c).
  - destruct b as [|y b]; [discriminate|].
    apply prefix_cons in H. destruct H as [-> H].
    simpl append. apply prefix_cons. split; [reflexivity | now apply IH].
Qed.

Lemma render_starts (hs : list string) (us : list string) :
  forallb (prefix SEP) hs = true ->
  render (combine hs us) = "" \/ prefix SEP (render (combine hs us)) = true.
Proof.
  intros H. destruct hs as [|h hs]; [now left|].
  destruct us as [|u us]; [now left|]. right.
  simpl in H. apply andb_prop in H. destruct H as [H _].
  simpl. now apply prefix_append_l.
Qed.

(** An occurrence of a separator-free string in a rendered text lies in a
    slot, unless it could start inside one of the headers. *)
Lemma includes_render (f : string) (hs us : list string) :
  f <> "" -> sepFree f = true ->
  forallb (fun h => prefix SEP h && clear_of f h) hs = true ->
  JS.includes (render (combine hs us)) f = true ->
  existsb (fun u => JS.includes u f) us = true.
Proof.
  intros Hne Hf. revert us.
  induction hs as [|h hs IH]; intros us Hh H.
  - apply includes_nil in H. contradiction.
  - destruct us as [|u us].
    + apply includes_nil in H. contradiction.
    + simpl in Hh. apply andb_prop in Hh. destruct Hh as [Hh Hhs].
      apply andb_prop in Hh. destruct Hh as [_ Hc].
      simpl in H. apply includes_block in H; trivial.
      * destruct H as [H | [H | H]].
        -- congruence.
        -- simpl. rewrite H. reflexivity.
        -- simpl. rewrite (IH us Hhs H). apply orb_true_r.
      * apply render_starts. clear - Hhs.
        induction hs as [|k hs IHk]; [reflexivity|].
        simpl in *. apply andb_prop in Hhs. destruct Hhs as [Hk Hks].
        apply andb_prop in Hk. destruct Hk as [Hk _].
        rewrite Hk. simpl. now apply IHk.
Qed.

Lemma includes_append_r (a s t : string) :
  JS.includes s t = true -> JS.includes (a ++ s) t = true.
Proof.
  intros H. induction a as [|x a IH]; simpl; [exact H|].
  now apply includes_cons.
Qed.

(** Each slot value occurs in the rendered text. *)
Lemma render_includes_slot (hs us : list string) (u : string) :
  List.length us <= List.length hs -> In u us ->
  JS.includes (render (combine hs us)) u = true.
Proof.
  revert us. induction hs as [|h hs IH]; intros us Hl Hin.
  - destruct us; [contradiction | simpl in Hl; lia].
  - destruct us as [|w us]; [contradiction|].
    simpl in Hl. simpl. destruct Hin as [-> | Hin].
    + apply includes_intro.
    + do 2 apply includes_append_r. apply IH; [lia | exact Hin].
Qed.

End StringFacts.

(* ================================================================= *)
(** ** The structure of the prompt *)

Section PromptStructure.


Import StringFacts.

Lemma promptText_render
    (topic description framework language tone : string)
    (targetAudience : option string) (pillar : string)
    (brand : option BrandProfile) :
  promptText topic description framework language tone targetAudience
             pillar brand
  = render (combine (headers (hasBrand brand) tone pillar)
                    (slots topic description framework language tone
                           targetAudience pillar brand)).
Proof.
  unfold promptText, slots.
  generalize (getFrameworkInstruction framework) as fi.
  generalize (getPillarInstruction pillar) as pi.
  generalize (getLanguageInstruction language) as li.
  generalize (resolvedAudience targetAudience brand) as ra.
  intros ra li pi fi.
  destruct brand as [b|]; unfold brandContext, headers, hasBrand, JS.lines;
    cbn [String.concat combine render List.app];
    rewrite !append_assoc; reflexivity.
Qed.

Lemma prompt_render (request : ContentRequest) :
  prompt request = render (segments request).
Proof. apply promptText_render. Qed.

Lemma slots_fit
    (topic description framework language tone : string)
    (targetAudience : option string) (pillar : string)
    (brand : option BrandProfile) :
  List.length (slots topic description framework language tone
                     targetAudience pillar brand)
  <= List.length (headers (hasBrand brand) tone pillar).
Proof. destruct brand; simpl; lia. Qed.

Lemma all_Tone_complete (t : Tone) : In t all_Tone.
Proof. destruct t; simpl; tauto. Qed.

Lemma all_ContentPillar_complete (p : ContentPillar) :
  In p all_ContentPillar.
Proof. destruct p; simpl; tauto. Qed.

Lemma all_Framework_complete (fw : Framework) : In fw all_Framework.
Proof. destruct fw; simpl; tauto. Qed.

Lemma all_Language_complete (l : Language) : In l all_Language.
Proof. destruct l; simpl; tauto. Qed.

Lemma traceable_inv (f : string) :
  traceable f = true ->
  f <> "" /\ sepFree f = true
  /\ (forall hb t p,
        forallb (fun h => prefix SEP h && clear_of f h)
                (headers hb (Tone_value t) (ContentPillar_value p)) = true)
  /\ JS.includes "General Audience" f = false
  /\ (forall t, JS.includes (Tone_value t) f = false)
  /\ (forall p, JS.includes (ContentPillar_value p) f = false).
Proof.
  unfold traceable. intros H.
  repeat (apply andb_prop in H; destruct H as [H ?]).
  repeat split.
  - apply negb_true_iff, String.eqb_neq in H. exact H.
  - assumption.
  - intros hb t p.
    match goal with
    | K : forallb _ [true; false] = true |- _ =>
        rewrite forallb_forall in K;
        assert (Hb := K hb ltac:(destruct hb; simpl; tauto))
    end.
    rewrite forallb_forall in Hb.
    assert (Ht := Hb t (all_Tone_complete t)).
    rewrite forallb_forall in Ht.
    exact (Ht p (all_ContentPillar_complete p)).
  - now apply negb_true_iff.
  - intros t.
    match goal with
    | K : forallb _ all_Tone = true |- _ =>
        rewrite forallb_forall in K;
        apply negb_true_iff, (K t (all_Tone_complete t))
    end.
  - intros p.
    match goal with
    | K : forallb _ all_ContentPillar = true |- _ =>
        rewrite forallb_forall in K;
        apply negb_true_iff, (K p (all_ContentPillar_complete p))
    end.
Qed.

Lemma resolvedAudience_cases
    (ta : option string) (b : option BrandProfile) :
  (exists a, ta = Some a /\ resolvedAudience ta b = a)
  \/ (exists p, b = Some p /\ resolvedAudience ta b = defaultAudience p)
  \/ resolvedAudience ta b = "General Audience".
Proof.
  unfold resolvedAudience, JS.or_else.
  destruct ta as [a|]; [destruct (JS.truthy a)|].
  - left. now exists a.
  - destruct b as [p|]; simpl; [destruct (JS.truthy _)|]; eauto.
  - destruct b as [p|]; simpl; [destruct (JS.truthy _)|]; eauto.
Qed.

(** Where a traceable string can occur in a prompt: in the free text of
    the request, or in one of the three instructions it selects. *)
Theorem prompt_includes_inv (request : ContentRequest) (f : string) :
  traceable f = true ->
  JS.includes (prompt request) f = true ->
  mentions request f = true
  \/ JS.includes (frameworkInstruction (framework request)) f = true
  \/ JS.includes (pillarInstruction (pillar request)) f = true
  \/ JS.includes (languageInstruction (language request)) f = true.
Proof.
  intros Ht H.
  destruct (traceable_inv f Ht) as (Hne & Hsep & Hh & Hg & Htone & Hpil).
  rewrite prompt_render in H. unfold segments in H.
  apply includes_render in H; trivial.
  destruct request as [tp ds fw pl lg tn ta br]; cbn [brand topic description
    framework pillar language tone targetAudience] in *.
  unfold mentions, freeText; cbn [brand topic description targetAudience].
  assert (A : JS.includes (resolvedAudience ta br) f = true ->
              existsb (fun u => JS.includes u f)
                ([tp; ds] ++ match ta with Some a => [a] | None => [] end
                 ++ match br with
                    | Some b => [name b; industry b; brandDescription b;
                                 defaultAudience b]
                    | None => []
                    end)%list = true).
  { intros I.
    destruct (resolvedAudience_cases ta br)
      as [(a & -> & E) | [(p & -> & E) | E]]; rewrite E in I.
    - simpl. rewrite I. now rewrite !orb_true_r.
    - destruct ta; simpl; rewrite I; now rewrite !orb_true_r.
    - congruence. }
  unfold slots in H. rewrite existsb_app in H.
  apply orb_prop in H. destruct H as [H | H].
  - left. destruct br as [b|]; [|discriminate H].
    rewrite !existsb_app. rewrite H. now rewrite !orb_true_r.
  - cbn [existsb] in H.
    assert (N : JS.includes "" f = false).
    { destruct (JS.includes "" f) eqn:E; [|reflexivity].
      apply includes_nil in E. contradiction. }
    rewrite N, !orb_false_r in H. clear N.
    repeat (apply orb_true_iff in H; destruct H as [H | H]).
    + left. simpl. now rewrite H.
    + left. simpl. rewrite H. now rewrite !orb_true_r.
    + left. now apply A.
    + now rewrite Htone in H.
    + now rewrite Hpil in H.
    + right; left. exact H.
    + right; right; left. exact H.
    + right; right; right. exact H.
Qed.

(** Each instruction the request selects is in its prompt. *)
Lemma prompt_includes_slot (request : ContentRequest) (u : string) :
  In u [frameworkInstruction (framework request);
        pillarInstruction (pillar request);
        languageInstruction (language request)] ->
  JS.includes (prompt request) u = true.
Proof.
  intros Hin. rewrite prompt_render. unfold segments.
  apply render_includes_slot; [apply slots_fit|].
  unfold slots. apply in_or_app. right.
  simpl in Hin. simpl. tauto.
Qed.

End PromptStructure.

(* ================================================================= *)
(** ** The instructions in the prompt *)

Section Instructions.

Import StringFacts.

Lemma frameworkInstruction_traceable (fw : Framework) :
  traceable (frameworkInstruction fw) = true.
Proof. destruct fw; vm_compute; reflexivity. Qed.

Lemma pillarInstruction_traceable (p : ContentPillar) :
  traceable (pillarInstruction p) = true.
Proof. destruct p; vm_compute; reflexivity. Qed.


(** No instruction contains an instruction of another enum member. *)
Lemma frameworkInstruction_in_framework (fw other : Framework) :
  JS.includes (frameworkInstruction fw) (frameworkInstruction other) = true ->
  other = fw.
Proof.
  destruct fw, other; intros H; try reflexivity;
    vm_compute in H; discriminate H.
Qed.

Lemma frameworkInstruction_in_pillar (p : ContentPillar) (fw : Framework) :
  JS.includes (pillarInstruction p) (frameworkInstruction fw) = false.
Proof. destruct p, fw; vm_compute; reflexivity. Qed.

Lemma frameworkInstruction_in_language (l : Language) (fw : Framework) :
  JS.includes (languageInstruction l) (frameworkInstruction fw) = false.
Proof. destruct l, fw; vm_compute; reflexivity. Qed.

Lemma pillarInstruction_in_pillar (p other : ContentPillar) :
  JS.includes (pillarInstruction p) (pillarInstruction other) = true ->
  other = p.
Proof.
  destruct p, other; intros H; try reflexivity;
    vm_compute in H; discriminate H.
Qed.

Lemma pillarInstruction_in_framework (fw : Framework) (p : ContentPillar) :
  JS.includes (frameworkInstruction fw) (pillarInstruction p) = false.
Proof. destruct fw, p; vm_compute; reflexivity. Qed.

Lemma pillarInstruction_in_language (l : Language) (p : ContentPillar) :
  JS.includes (languageInstruction l) (pillarInstruction p) = false.
Proof. destruct l, p; vm_compute; reflexivity. Qed.





End Instructions.

(* ================================================================= *)
(** ** Prompt Builder: which instructions a prompt contains *)

(** C1, as stated, fails: a request whose topic is the text of the PAS
    instruction and whose framework is AIDA yields a prompt that contains
    the PAS instruction as well. *)
Lemma framework_fragment_pasted_in_topic :
  framework pastedFrameworkRequest = AIDA
  /\ JS.includes (prompt pastedFrameworkRequest)
                 (frameworkInstruction AIDA) = true
  /\ JS.includes (prompt pastedFrameworkRequest)
                 (frameworkInstruction PAS) = true.
Proof. vm_compute. repeat split. Qed.

(** C1 (amended): for every supported framework, the prompt contains the
    instruction [getFrameworkInstruction] returns for the framework of the
    request; it contains the instruction of another framework only if one of
    the free-text fields of the request (topic, description, target
    audience, the name, industry, description and default audience of the
    brand) contains it. *)
Theorem framework_fragment_exclusive (request : ContentRequest) :
  JS.includes (prompt request) (frameworkInstruction (framework request)) = true
  /\ (forall other : Framework,
        other <> framework request ->
        mentions request (frameworkInstruction other) = false ->
        JS.includes (prompt request) (frameworkInstruction other) = false).
Proof.
  split.
  - apply prompt_includes_slot. simpl. tauto.
  - intros other Hother Hfree.
    destruct (JS.includes (prompt request) (frameworkInstruction other))
      eqn:E; [exfalso | reflexivity].
    apply prompt_includes_inv in E; [|apply frameworkInstruction_traceable].
    destruct E as [E | [E | [E | E]]].
    + congruence.
    + apply frameworkInstruction_in_framework in E. contradiction.
    + now rewrite frameworkInstruction_in_pillar in E.
    + now rewrite frameworkInstruction_in_language in E.
Qed.

Lemma framework_fragment_exclusive_witness :
  JS.includes (prompt earbudsRequest) (frameworkInstruction PAS) = true
  /\ JS.includes (prompt earbudsRequest) (frameworkInstruction AIDA) = false
  /\ JS.includes (prompt earbudsRequest) (frameworkInstruction PASTOR) = false.
Proof.
  destruct (framework_fragment_exclusive earbudsRequest) as [H1 H2].
  split; [exact H1|].
  split; apply H2; solve [discriminate | reflexivity].
Defined.

(** C2, as stated, fails: a request whose topic is the text of the
    Educational instruction and whose pillar is Promotional yields a prompt
    that contains both pillar instructions. *)
Lemma pillar_fragment_pasted_in_topic :
  pillar pastedPillarRequest = PROMOTIONAL
  /\ JS.includes (prompt pastedPillarRequest)
                 (pillarInstruction PROMOTIONAL) = true
  /\ JS.includes (prompt pastedPillarRequest)
                 (pillarInstruction EDUCATIONAL) = true.
Proof. vm_compute. repeat split. Qed.

(** C2 (amended): for every supported content pillar, the prompt contains
    the instruction [getPillarInstruction] returns for the pillar of the
    request; it contains the instruction of another pillar only if one of
    the free-text fields of the request contains it. *)
Theorem pillar_fragment_exclusive (request : ContentRequest) :
  JS.includes (prompt request) (pillarInstruction (pillar request)) = true
  /\ (forall other : ContentPillar,
        other <> pillar request ->
        mentions request (pillarInstruction other) = false ->
        JS.includes (prompt request) (pillarInstruction other) = false).
Proof.
  split.
  - apply prompt_includes_slot. simpl. tauto.
  - intros other Hother Hfree.
    destruct (JS.includes (prompt request) (pillarInstruction other))
      eqn:E; [exfalso | reflexivity].
    apply prompt_includes_inv in E; [|apply pillarInstruction_traceable].
    destruct E as [E | [E | [E | E]]].
    + congruence.
    + now rewrite pillarInstruction_in_framework in E.
    + apply pillarInstruction_in_pillar in E. contradiction.
    + now rewrite pillarInstruction_in_language in E.
Qed.

Lemma pillar_fragment_exclusive_witness :
  JS.includes (prompt earbudsRequest) (pillarInstruction PROMOTIONAL) = true
  /\ JS.includes (prompt earbudsRequest) (pillarInstruction COMMUNITY) = false
  /\ JS.includes (prompt earbudsRequest) (pillarInstruction EDUCATIONAL)
     = false.
Proof.
  destruct (pillar_fragment_exclusive earbudsRequest) as [H1 H2].
  split; [exact H1|].
  split; apply H2; solve [discriminate | reflexivity].
Defined.




(** C4: the Target Audience line of the prompt is the header
    [Target Audience: ] followed by the resolved audience.  With an empty
    (or absent) [targetAudience] the resolved audience is the brand's
    [defaultAudience] when a brand is present and that default is not
    empty, and the fixed string [General Audience] when no brand is present
    or the brand's default is empty as well; otherwise it is
    [targetAudience]. *)
Theorem target_audience_resolution (request : ContentRequest) :
  let audience :=
    resolvedAudience (targetAudience request) (brand request) in
  prompt request = render (segments request)
  /\ In (JS.LF ++ "  Target Audience: ", audience) (segments request)
  /\ (JS.truthy_opt (targetAudience request) = false ->
      forall b, brand request = Some b -> defaultAudience b <> "" ->
      audience = defaultAudience b)
  /\ (JS.truthy_opt (targetAudience request) = false ->
      brand request = None
      \/ (exists b, brand request = Some b /\ defaultAudience b = "") ->
      audience = "General Audience")
  /\ (forall a, targetAudience request = Some a -> a <> "" -> audience = a).
Proof.
  intros audience. subst audience.
  split; [apply prompt_render|]. split.
  - unfold segments, headers, slots.
    destruct (brand request); simpl; tauto.
  - unfold resolvedAudience, JS.or_else, JS.truthy_opt, JS.truthy.
    repeat split.
    + intros He b Hb Hd. rewrite Hb. simpl.
      apply String.eqb_neq in Hd. rewrite Hd. simpl.
      destruct (targetAudience request) as [a|]; [|reflexivity].
      now rewrite He.
    + intros He Hb.
      assert (G : (match option_map defaultAudience (brand request) with
                   | Some s => if negb (s =? "") then s else "General Audience"
                   | None => "General Audience"
                   end) = "General Audience").
      { destruct Hb as [-> | (b & -> & Hd)]; simpl; [reflexivity|].
        now rewrite Hd. }
      rewrite G.
      destruct (targetAudience request) as [a|]; [|reflexivity].
      now rewrite He.
    + intros a -> Ha. apply String.eqb_neq in Ha. now rewrite Ha.
Qed.

Lemma target_audience_resolution_witness :
  resolvedAudience (targetAudience brandedRequest) (brand brandedRequest)
    = "Tech enthusiasts, Early adopters, Ages 18-35"
  /\ resolvedAudience (targetAudience earbudsRequest) (brand earbudsRequest)
    = "General Audience"
  /\ resolvedAudience (targetAudience explicitAudienceRequest)
                      (brand explicitAudienceRequest)
    = "Commuters".
Proof.
  split; [|split].
  - destruct (target_audience_resolution brandedRequest)
      as (_ & _ & H & _ & _).
    apply (H eq_refl techNova eq_refl). discriminate.
  - destruct (target_audience_resolution earbudsRequest)
      as (_ & _ & _ & H & _).
    apply (H eq_refl). left. reflexivity.
  - destruct (target_audience_resolution explicitAudienceRequest)
      as (_ & _ & _ & _ & H).
    apply (H "Commuters" eq_refl). discriminate.
Defined.

(* ================================================================= *)
(** ** Generation Client *)

Section Generation.

Variable api :
  GenerateContentParameters -> Completion GenerateContentResponse.

(** C6: when the API call throws, [generateCopy] prints the error and
    throws one generic [Error] whatever was thrown; [handleGenerate] then
    prints that error and shows exactly one alert with a fixed text, leaves
    [formData] as it was, and ends with [loading] false. *)
Theorem generation_failure (s : AppState) (error : JsError) :
  api (Gemini.parametersFor (formData s)) = Throw error ->
  Gemini.generateCopy api (formData s)
    = ([ConsoleError ["Gemini API Error:"; message error]],
       Throw (Error Gemini.failureMessage))
  /\ fst (handleGenerate api s)
     = [ConsoleError ["Gemini API Error:"; message error];
        ConsoleError [Gemini.failureMessage];
        Alert "Something went wrong. Please try again."]
  /\ alerts (fst (handleGenerate api s))
     = ["Something went wrong. Please try again."]
  /\ formData (snd (handleGenerate api s)) = formData s
  /\ loading (snd (handleGenerate api s)) = false
  /\ generatedContent (snd (handleGenerate api s)) = None.
Proof.
  intros H. unfold handleGenerate, Gemini.generateCopy. rewrite H.
  repeat split.
Qed.

(** C7: when the API call succeeds, [generateCopy] returns the text of the
    response without printing or throwing anything, and the fixed fallback
    text when the response has no text or an empty one. *)
Theorem generation_success
    (request : ContentRequest) (response : GenerateContentResponse) :
  api (Gemini.parametersFor request) = Normal response ->
  (forall t, text response = Some t -> t <> "" ->
     Gemini.generateCopy api request = ([], Normal t))
  /\ (text response = None \/ text response = Some "" ->
      Gemini.generateCopy api request
        = ([], Normal "Sorry, I couldn't generate the content at this time.")).
Proof.
  intros H. unfold Gemini.generateCopy. rewrite H. split.
  - intros t -> Ht. unfold JS.or_else, JS.truthy.
    apply String.eqb_neq in Ht. now rewrite Ht.
  - intros [-> | ->]; reflexivity.
Qed.

End Generation.

Lemma generation_failure_witness :
  fst (handleGenerate offline initialState)
  = [ConsoleError ["Gemini API Error:"; "fetch failed"];
     ConsoleError [Gemini.failureMessage];
     Alert "Something went wrong. Please try again."]
  /\ formData (snd (handleGenerate offline initialState))
     = formData initialState
  /\ loading (snd (handleGenerate offline initialState)) = false.
Proof.
  destruct (generation_failure offline initialState (Error "fetch failed")
              eq_refl) as (_ & H1 & _ & H2 & H3 & _).
  repeat split; assumption.
Defined.

Lemma generation_success_witness :
  Gemini.generateCopy (answering (Some "# Earbuds")) earbudsRequest
    = ([], Normal "# Earbuds")
  /\ Gemini.generateCopy (answering (Some "")) earbudsRequest
    = ([], Normal Gemini.fallbackText)
  /\ Gemini.generateCopy (answering None) earbudsRequest
    = ([], Normal Gemini.fallbackText).
Proof.
  split; [|split].
  - destruct (generation_success (answering (Some "# Earbuds")) earbudsRequest
                {| text := Some "# Earbuds" |} eq_refl) as [H _].
    apply (H "# Earbuds" eq_refl). discriminate.
  - destruct (generation_success (answering (Some "")) earbudsRequest
                {| text := Some "" |} eq_refl) as [_ H].
    apply H. right. reflexivity.
  - destruct (generation_success (answering None) earbudsRequest
                {| text := None |} eq_refl) as [_ H].
    apply H. left. reflexivity.
Defined.

(* ================================================================= *)
(** ** Brand Registry and form lifecycle *)

Lemma filter_without (brandId : string) (bs : list BrandProfile) :
  forall b, In b (filter (fun b => negb (id b =? brandId)) bs) ->
            id b <> brandId.
Proof.
  intros b H. apply filter_In in H. destruct H as [_ H].
  apply negb_true_iff in H. now apply String.eqb_neq.
Qed.

Lemma same_value_refl (a : option string) : JS.same_value a a = true.
Proof. destruct a; simpl; [apply String.eqb_refl | reflexivity]. Qed.

(** C5, as stated, fails: deleting the selected brand leaves the tone and
    the target audience it had put into the form where they are. *)
Lemma delete_selected_keeps_overrides :
  tone (formData initialState) = PROFESSIONAL
  /\ targetAudience (formData initialState) = Some ""
  /\ selectedBrandId techNovaSelected = Some "demo-1"
  /\ tone (formData techNovaSelected) = defaultTone techNova
  /\ targetAudience (formData techNovaSelected)
     = Some (defaultAudience techNova)
  /\ selectedBrandId techNovaDeleted = None
  /\ brand (formData techNovaDeleted) = None
  /\ tone (formData techNovaDeleted) = defaultTone techNova
  /\ targetAudience (formData techNovaDeleted)
     = Some (defaultAudience techNova).
Proof. vm_compute. repeat split. Qed.

(** C5 (amended): deleting the currently selected brand removes every brand
    of that id from the list and clears the selection; the brand effect
    that runs on that state update detaches the brand object from the
    active request and leaves its tone, its target audience and its other
    fields as they were. *)
Theorem delete_selected_brand (s : AppState) (brandId : string) :
  selectedBrandId s = Some brandId ->
  let deleted := handleDeleteBrand brandId s in
  let settled := update (DeleteBrand brandId) s in
  brands deleted = filter (fun b => negb (id b =? brandId)) (brands s)
  /\ (forall b, In b (brands deleted) -> id b <> brandId)
  /\ selectedBrandId deleted = None
  /\ formData deleted = formData s
  /\ settled = brandEffect deleted
  /\ brands settled = brands deleted
  /\ selectedBrandId settled = None
  /\ brand (formData settled) = None
  /\ tone (formData settled) = tone (formData s)
  /\ targetAudience (formData settled) = targetAudience (formData s)
  /\ topic (formData settled) = topic (formData s)
  /\ description (formData settled) = description (formData s)
  /\ framework (formData settled) = framework (formData s)
  /\ pillar (formData settled) = pillar (formData s)
  /\ language (formData settled) = language (formData s).
Proof.
  intros Hsel deleted settled.
  assert (E : deleted
              = setSelectedBrandId None
                  (setBrands (filter (fun b => negb (id b =? brandId))) s)).
  { unfold deleted, handleDeleteBrand. rewrite Hsel. simpl.
    now rewrite String.eqb_refl. }
  assert (F : settled = brandEffect deleted) by reflexivity.
  rewrite F, E. unfold brandEffect. simpl.
  repeat split. apply filter_without.
Qed.

Lemma delete_selected_brand_witness :
  selectedBrandId techNovaDeleted = None
  /\ brand (formData techNovaDeleted) = None
  /\ tone (formData techNovaDeleted) = tone (formData techNovaSelected)
  /\ targetAudience (formData techNovaDeleted)
     = targetAudience (formData techNovaSelected).
Proof.
  destruct (delete_selected_brand techNovaSelected "demo-1" eq_refl)
    as (_ & _ & _ & _ & _ & _ & H3 & H4 & H5 & H6 & _).
  split; [exact H3|]. split; [exact H4|]. split; [exact H5 | exact H6].
Defined.

(** C8, as stated, fails in three ways.  A brand whose id is the empty
    string is in the list, yet setting [selectedBrandId] to its id counts
    as no selection: the form keeps its tone and gets no brand.  Of two
    brands with one id, selecting the id of the second fills the form from
    the first.  And setting [selectedBrandId] to the id it already holds
    runs no effect, so a tone edited since the selection stays. *)
Lemma select_brand_not_applied :
  (In anonymousBrand (brands anonymousSelected)
   /\ selectedBrandId anonymousSelected = Some (id anonymousBrand)
   /\ tone (formData anonymousSelected) = PROFESSIONAL
   /\ defaultTone anonymousBrand = LUXURY
   /\ brand (formData anonymousSelected) = None)
  /\ (In twinBrand (brands twinSelected)
      /\ selectedBrandId twinSelected = Some (id twinBrand)
      /\ tone (formData twinSelected) = WITTY
      /\ defaultTone twinBrand = URGENT
      /\ brand (formData twinSelected) = Some techNova)
  /\ (In techNova (brands reselected)
      /\ selectedBrandId toneEdited = Some (id techNova)
      /\ selectedBrandId reselected = Some (id techNova)
      /\ tone (formData reselected) = LUXURY
      /\ defaultTone techNova = WITTY).
Proof. vm_compute. intuition. Qed.

(** C8 (amended): changing [selectedBrandId] to a non-empty id for which
    the list has a brand overwrites the tone and the target audience of the
    current request with the [defaultTone] and [defaultAudience] of the
    first brand of the list with that id and attaches that brand object;
    the other fields of the request and the brands list, with that brand's
    entry, are left unchanged. *)
Theorem select_brand (s : AppState) (brandId : string) (b : BrandProfile) :
  brandId <> "" ->
  selectedBrandId s <> Some brandId ->
  findBrand brandId (brands s) = Some b ->
  let s' := update (SelectBrand (Some brandId)) s in
  selectedBrandId s' = Some brandId
  /\ tone (formData s') = defaultTone b
  /\ targetAudience (formData s') = Some (defaultAudience b)
  /\ brand (formData s') = Some b
  /\ topic (formData s') = topic (formData s)
  /\ description (formData s') = description (formData s)
  /\ framework (formData s') = framework (formData s)
  /\ pillar (formData s') = pillar (formData s)
  /\ language (formData s') = language (formData s)
  /\ brands s' = brands s
  /\ In b (brands s') /\ id b = brandId.
Proof.
  intros Hne Hchg Hfind s'.
  assert (E : s' = brandEffect (setSelectedBrandId (Some brandId) s)).
  { unfold s', update. simpl.
    destruct (selectedBrandId s) as [old|]; simpl; [|reflexivity].
    destruct (String.eqb_spec old brandId) as [->|_]; [|reflexivity].
    now destruct Hchg. }
  rewrite E. unfold brandEffect. simpl.
  unfold JS.truthy. apply String.eqb_neq in Hne. rewrite Hne. simpl.
  rewrite Hfind. simpl.
  apply find_some in Hfind. destruct Hfind as [Hin Hid].
  apply String.eqb_eq in Hid.
  repeat split; assumption.
Qed.

Lemma select_brand_witness :
  tone (formData techNovaSelected) = WITTY
  /\ targetAudience (formData techNovaSelected)
     = Some "Tech enthusiasts, Early adopters, Ages 18-35"
  /\ brand (formData techNovaSelected) = Some techNova
  /\ brands techNovaSelected = DEFAULT_BRANDS.
Proof.
  assert (Hne : "demo-1" <> "") by discriminate.
  assert (Hchg : selectedBrandId initialState <> Some "demo-1")
    by discriminate.
  destruct (select_brand initialState "demo-1" techNova Hne Hchg eq_refl)
    as (_ & H1 & H2 & H3 & _ & _ & _ & _ & _ & H4 & _).
  split; [exact H1|]. split; [exact H2|]. split; [exact H3 | exact H4].
Defined.

(** C9: [handleClear] resets the topic and the description to the empty
    string, resets the target audience to empty when no brand is selected
    ([selectedBrandId] is null or empty, the handler's own test) and keeps
    it otherwise, clears the generated content, and leaves the brands list
    and the selection unchanged; no effect follows it. *)
Theorem clear_resets_inputs (s : AppState) :
  let s' := handleClear s in
  update Clear s = s'
  /\ topic (formData s') = ""
  /\ description (formData s') = ""
  /\ (JS.truthy_opt (selectedBrandId s) = false ->
      targetAudience (formData s') = Some "")
  /\ (JS.truthy_opt (selectedBrandId s) = true ->
      targetAudience (formData s') = targetAudience (formData s))
  /\ generatedContent s' = None
  /\ brands s' = brands s
  /\ selectedBrandId s' = selectedBrandId s.
Proof.
  intros s'. unfold s', update, handleClear. simpl.
  rewrite same_value_refl. simpl.
  repeat split; intros H; now rewrite H.
Qed.

Lemma clear_resets_inputs_witness :
  targetAudience (formData (handleClear initialState)) = Some ""
  /\ targetAudience (formData (handleClear techNovaSelected))
     = Some "Tech enthusiasts, Early adopters, Ages 18-35".
Proof.
  split.
  - destruct (clear_resets_inputs initialState)
      as (_ & _ & _ & H & _).
    apply H. reflexivity.
  - destruct (clear_resets_inputs techNovaSelected)
      as (_ & _ & _ & _ & H & _).
    apply H. reflexivity.
Defined.

(** C10: [handleClear] leaves the framework, the pillar, the language and
    the tone of the request unchanged, as well as its brand object, the
    brands list, the selection, the loading flag and the theme; only the
    topic, the description, the target audience and the generated content
    can differ afterwards. *)
Theorem clear_frame (s : AppState) :
  framework (formData (handleClear s)) = framework (formData s)
  /\ pillar (formData (handleClear s)) = pillar (formData s)
  /\ language (formData (handleClear s)) = language (formData s)
  /\ tone (formData (handleClear s)) = tone (formData s)
  /\ brand (formData (handleClear s)) = brand (formData s)
  /\ brands (handleClear s) = brands s
  /\ selectedBrandId (handleClear s) = selectedBrandId s
  /\ loading (handleClear s) = loading s
  /\ isDarkMode (handleClear s) = isDarkMode s.
Proof. repeat split. Qed.

(* ================================================================= *)
(** ** More on the prompt: what passes through, and nothing else *)

Section PassThrough.

Import StringFacts.

Lemma prefix_elim (t s : string) :
  prefix t s = true -> exists b, s = t ++ b.
Proof.
  revert s. induction t as [|x t IH]; intros s H.
  - exists s. reflexivity.
  - destruct s as [|y s]; [discriminate H|].
    apply prefix_cons in H. destruct H as [-> H].
    destruct (IH s H) as [b ->]. exists b. reflexivity.
Qed.

Lemma includes_elim (s t : string) :
  JS.includes s t = true -> exists a b, s = a ++ t ++ b.
Proof.
  induction s as [|x s IH]; intros H; rewrite includes_unfold in H;
    apply orb_true_iff in H; destruct H as [H | H].
  - apply prefix_elim in H. destruct H as [b ->]. now exists "", b.
  - discriminate H.
  - apply prefix_elim in H. destruct H as [b ->]. now exists "", b.
  - destruct (IH H) as (a & b & ->). now exists (String x a), b.
Qed.

Lemma includes_trans (s u t : string) :
  JS.includes s u = true -> JS.includes u t = true ->
  JS.includes s t = true.
Proof.
  intros Hs Hu.
  apply includes_elim in Hs. destruct Hs as (a & b & ->).
  apply includes_elim in Hu. destruct Hu as (a' & b' & ->).
  replace (a ++ (a' ++ t ++ b') ++ b) with ((a ++ a') ++ t ++ (b' ++ b))
    by (now rewrite !append_assoc).
  apply includes_intro.
Qed.

Lemma includes_empty (s : string) : JS.includes s "" = true.
Proof. rewrite includes_unfold. now destruct s. Qed.

Lemma render_includes_header (hs us : list string) (h : string) :
  List.length hs <= List.length us -> In h hs ->
  JS.includes (render (combine hs us)) h = true.
Proof.
  revert us. induction hs as [|k hs IH]; intros us Hl Hin; [contradiction|].
  destruct us as [|u us]; [simpl in Hl; lia|].
  simpl in Hl. simpl. destruct Hin as [-> | Hin].
  - exact (includes_intro "" h (u ++ render (combine hs us))).
  - do 2 apply includes_append_r. apply IH; [lia | exact Hin].
Qed.

Lemma slots_cover
    (topic description framework language tone : string)
    (targetAudience : option string) (pillar : string)
    (brand : option BrandProfile) :
  List.length (headers (hasBrand brand) tone pillar)
  <= List.length (slots topic description framework language tone
                        targetAudience pillar brand).
Proof. destruct brand; simpl; lia. Qed.

(** Each free text of a request is empty or fills one of the slots. *)
Lemma free_text_slot (request : ContentRequest) (u : string) :
  In u (freeText request) ->
  u = ""
  \/ In u (slots (topic request) (description request)
                 (Framework_value (framework request))
                 (Language_value (language request))
                 (Tone_value (tone request)) (targetAudience request)
                 (ContentPillar_value (pillar request)) (brand request)).
Proof.
  intros Hin. unfold freeText in Hin. unfold slots.
  apply in_app_or in Hin. destruct Hin as [Hin|Hin].
  - right. apply in_or_app. right. simpl in Hin. simpl. tauto.
  - apply in_app_or in Hin. destruct Hin as [Hin|Hin].
    + destruct (targetAudience request) as [a|] eqn:Ea; [|contradiction].
      destruct Hin as [<- | []].
      destruct (JS.truthy a) eqn:Ta.
      * right. apply in_or_app. right.
        unfold resolvedAudience, JS.or_else. rewrite Ta. simpl. tauto.
      * left. unfold JS.truthy in Ta.
        now apply negb_false_iff, String.eqb_eq in Ta.
    + right. apply in_or_app. left.
      destruct (brand request); [exact Hin | contradiction].
Qed.

(** The request's own text reaches the prompt verbatim: the topic, the
    description, a given target audience and every text field of an
    attached brand each occur in the prompt, whatever they contain. *)
Theorem prompt_passes_free_text (request : ContentRequest) (u : string) :
  In u (freeText request) ->
  JS.includes (prompt request) u = true.
Proof.
  intros Hin. destruct (free_text_slot request u Hin) as [-> | Hslot].
  - apply includes_empty.
  - rewrite prompt_render. unfold segments.
    apply render_includes_slot; [apply slots_fit | exact Hslot].
Qed.

Lemma prompt_passes_free_text_witness :
  JS.includes (prompt explicitAudienceRequest) "Commuters" = true.
Proof.
  apply (prompt_passes_free_text explicitAudienceRequest "Commuters").
  simpl. tauto.
Defined.

(** X2: let [f] be a text that is not empty, contains no line break
    followed by a blank and does not end in a line break, occurs in no
    header of the template (the fixed text before each slot, for any tone
    and pillar) and does not begin with a non-empty end of one, and occurs
    neither in [General Audience] nor in the value of a tone or a pillar:
    this is [traceable f].  Such a text occurs in the prompt exactly when
    it occurs in the free text of the request or in one of the three
    instructions the request selects. *)
Theorem prompt_includes_iff (request : ContentRequest) (f : string) :
  traceable f = true ->
  (JS.includes (prompt request) f = true <->
   mentions request f = true
   \/ JS.includes (frameworkInstruction (framework request)) f = true
   \/ JS.includes (pillarInstruction (pillar request)) f = true
   \/ JS.includes (languageInstruction (language request)) f = true).
Proof.
  intros Ht. split; [now apply prompt_includes_inv|].
  intros [H | H].
  - unfold mentions in H. apply existsb_exists in H.
    destruct H as (u & Hin & Hu).
    destruct (free_text_slot request u Hin) as [-> | Hslot].
    + apply includes_nil in Hu. subst f. discriminate Ht.
    + refine (includes_trans _ u _ _ Hu).
      rewrite prompt_render. unfold segments.
      apply render_includes_slot; [apply slots_fit | exact Hslot].
  - assert (G : forall w,
        In w [frameworkInstruction (framework request);
              pillarInstruction (pillar request);
              languageInstruction (language request)] ->
        JS.includes w f = true -> JS.includes (prompt request) f = true).
    { intros w Hw Hf.
      exact (includes_trans _ _ _ (prompt_includes_slot request w Hw) Hf). }
    destruct H as [H | [H | H]]; (eapply G; [|exact H]); simpl; tauto.
Qed.

Lemma prompt_includes_iff_witness :
  JS.includes (prompt earbudsRequest) "Wireless Earbuds" = true
  /\ JS.includes (prompt earbudsRequest) "Wired Headphones" = false.
Proof.
  split.
  - apply (prompt_includes_iff earbudsRequest "Wireless Earbuds" eq_refl).
    left. reflexivity.
  - destruct (JS.includes (prompt earbudsRequest) "Wired Headphones") eqn:E;
      [|reflexivity].
    apply (prompt_includes_iff earbudsRequest "Wired Headphones" eq_refl) in E.
    destruct E as [E | [E | [E | E]]]; vm_compute in E; discriminate E.
Defined.

End PassThrough.

Section BrandBlock.

Import StringFacts.

Lemma traceableWith_inv (hb : bool) (f : string) :
  traceableWith hb f = true ->
  f <> "" /\ sepFree f = true
  /\ (forall t p,
        forallb (fun h => prefix SEP h && clear_of f h)
                (headers hb (Tone_value t) (ContentPillar_value p)) = true)
  /\ JS.includes "General Audience" f = false
  /\ (forall t, JS.includes (Tone_value t) f = false)
  /\ (forall p, JS.includes (ContentPillar_value p) f = false)
  /\ (forall fw, JS.includes (frameworkInstruction fw) f = false)
  /\ (forall p, JS.includes (pillarInstruction p) f = false)
  /\ (forall l, JS.includes (languageInstruction l) f = false).
Proof.
  unfold traceableWith. intros H.
  repeat (apply andb_prop in H; destruct H as [H ?]).
  repeat match goal with
         | K : forallb _ _ = true |- _ => rewrite forallb_forall in K
         end.
  repeat split.
  - apply negb_true_iff, String.eqb_neq in H. exact H.
  - assumption.
  - intros t p.
    match goal with
    | K : forall x, In x all_Tone -> forallb _ all_ContentPillar = true |- _ =>
        pose proof (K t (all_Tone_complete t)) as Kt
    end.
    rewrite forallb_forall in Kt.
    exact (Kt p (all_ContentPillar_complete p)).
  - now apply negb_true_iff.
  - intros t.
    match goal with
    | K : forall x, In x all_Tone -> negb _ = true |- _ =>
        apply negb_true_iff, (K t (all_Tone_complete t))
    end.
  - intros p.
    match goal with
    | K : forall x, In x all_ContentPillar ->
                    negb (JS.includes (ContentPillar_value x) f) = true |- _ =>
        apply negb_true_iff, (K p (all_ContentPillar_complete p))
    end.
  - intros fw.
    match goal with
    | K : forall x, In x all_Framework -> _ |- _ =>
        apply negb_true_iff, (K fw (all_Framework_complete fw))
    end.
  - intros p.
    match goal with
    | K : forall x, In x all_ContentPillar ->
                    negb (JS.includes (pillarInstruction x) f) = true |- _ =>
        apply negb_true_iff, (K p (all_ContentPillar_complete p))
    end.
  - intros l.
    match goal with
    | K : forall x, In x all_Language -> _ |- _ =>
        apply negb_true_iff, (K l (all_Language_complete l))
    end.
Qed.

(** A text foreign to the template of a prompt, to the enum values and to
    every instruction can only come from the free text of the request. *)
Lemma prompt_includes_foreign (request : ContentRequest) (f : string) :
  traceableWith (hasBrand (brand request)) f = true ->
  JS.includes (prompt request) f = true ->
  mentions request f = true.
Proof.
  intros Ht H.
  destruct (traceableWith_inv _ f Ht)
    as (Hne & Hsep & Hh & Hg & Htone & Hpil & Hfi & Hpi & Hli).
  rewrite prompt_render in H. unfold segments in H.
  apply includes_render in H; trivial.
  destruct request as [tp ds fw pl lg tn ta br]; cbn [brand topic description
    framework pillar language tone targetAudience] in *.
  unfold mentions, freeText; cbn [brand topic description targetAudience].
  assert (A : JS.includes (resolvedAudience ta br) f = true ->
              existsb (fun u => JS.includes u f)
                ([tp; ds] ++ match ta with Some a => [a] | None => [] end
                 ++ match br with
                    | Some b => [name b; industry b; brandDescription b;
                                 defaultAudience b]
                    | None => []
                    end)%list = true).
  { intros I.
    destruct (resolvedAudience_cases ta br)
      as [(a & -> & E) | [(p & -> & E) | E]]; rewrite E in I.
    - simpl. rewrite I. now rewrite !orb_true_r.
    - destruct ta; simpl; rewrite I; now rewrite !orb_true_r.
    - congruence. }
  unfold slots in H. rewrite existsb_app in H.
  apply orb_prop in H. destruct H as [H | H].
  - destruct br as [b|]; [|discriminate H].
    rewrite !existsb_app. rewrite H. now rewrite !orb_true_r.
  - cbn [existsb] in H.
    assert (N : JS.includes "" f = false).
    { destruct (JS.includes "" f) eqn:E; [|reflexivity].
      apply includes_nil in E. contradiction. }
    fold (frameworkInstruction fw) in H. fold (pillarInstruction pl) in H.
    fold (languageInstruction lg) in H.
    rewrite N, Htone, Hpil, Hfi, Hpi, Hli, !orb_false_r in H. clear N.
    repeat (apply orb_true_iff in H; destruct H as [H | H]).
    + simpl. now rewrite H.
    + simpl. rewrite H. now rewrite !orb_true_r.
    + now apply A.
Qed.

(** X3: the brand block of the prompt follows the request: unless the free
    text of the request itself contains the marker, the placeholder
    [BRAND IDENTITY: Generic / Not specified] is in the prompt exactly when
    the request has no brand, and the label [- Brand Name:] exactly when it
    has one. *)
Theorem brand_block_exclusive (request : ContentRequest) :
  mentions request brandPlaceholder = false ->
  mentions request brandNameLabel = false ->
  (JS.includes (prompt request) brandPlaceholder = true
   <-> brand request = None)
  /\ (JS.includes (prompt request) brandNameLabel = true
      <-> brand request <> None).
Proof.
  intros Hp Hl.
  assert (Hd : forall hs us h m,
             List.length hs <= List.length us -> In h hs ->
             JS.includes h m = true ->
             JS.includes (render (combine hs us)) m = true).
  { intros hs us h m L I M.
    exact (includes_trans _ _ _ (render_includes_header hs us h L I) M). }
  split; split.
  - intros H. destruct (brand request) as [b|] eqn:Eb; [|reflexivity].
    exfalso.
    assert (T : traceableWith (hasBrand (brand request)) brandPlaceholder
                = true) by (rewrite Eb; vm_compute; reflexivity).
    rewrite (prompt_includes_foreign request _ T H) in Hp. discriminate.
  - intros Eb. rewrite prompt_render. unfold segments.
    eapply Hd; [apply slots_cover | |].
    + rewrite Eb. simpl. left. reflexivity.
    + vm_compute. reflexivity.
  - intros H Eb.
    assert (T : traceableWith (hasBrand (brand request)) brandNameLabel
                = true) by (rewrite Eb; vm_compute; reflexivity).
    rewrite (prompt_includes_foreign request _ T H) in Hl. discriminate.
  - intros Eb. destruct (brand request) as [b|] eqn:Eb'; [|now destruct Eb].
    rewrite prompt_render. unfold segments.
    eapply Hd; [apply slots_cover | |].
    + rewrite Eb'. simpl. left. reflexivity.
    + vm_compute. reflexivity.
Qed.

Lemma brand_block_exclusive_witness :
  JS.includes (prompt earbudsRequest) brandPlaceholder = true
  /\ JS.includes (prompt brandedRequest) brandNameLabel = true.
Proof.
  split.
  - apply (brand_block_exclusive earbudsRequest eq_refl eq_refl).
    reflexivity.
  - apply (brand_block_exclusive brandedRequest eq_refl eq_refl).
    discriminate.
Defined.

End BrandBlock.

(* ================================================================= *)
(** ** The instruction switches *)

Lemma eqb_value_false (v w : string) : v <> w -> (v =? w) = false.
Proof. apply String.eqb_neq. Qed.

(** X4: [getFrameworkInstruction] returns the empty string exactly for the
    values that are no member of [Framework], and different members get
    different instructions. *)
Theorem getFrameworkInstruction_default (v : string) :
  (getFrameworkInstruction v = "" <-> forall fw, v <> Framework_value fw)
  /\ (forall fw fw',
        frameworkInstruction fw = frameworkInstruction fw' -> fw = fw').
Proof.
  split; [split|].
  - intros H fw ->. destruct fw; vm_compute in H; discriminate H.
  - intros H. unfold getFrameworkInstruction.
    rewrite (eqb_value_false _ _ (H AIDA)), (eqb_value_false _ _ (H PAS)),
      (eqb_value_false _ _ (H BAB)), (eqb_value_false _ _ (H FAB)),
      (eqb_value_false _ _ (H QUEST)), (eqb_value_false _ _ (H FOUR_P)),
      (eqb_value_false _ _ (H PASTOR)), (eqb_value_false _ _ (H FREESTYLE)).
    reflexivity.
  - intros fw fw' H. destruct fw, fw'; try reflexivity;
      vm_compute in H; discriminate H.
Qed.

(** X5: [getPillarInstruction] returns the empty string exactly for the values
    that are no member of [ContentPillar], and different members get
    different instructions. *)
Theorem getPillarInstruction_default (v : string) :
  (getPillarInstruction v = "" <-> forall p, v <> ContentPillar_value p)
  /\ (forall p p', pillarInstruction p = pillarInstruction p' -> p = p').
Proof.
  split; [split|].
  - intros H p ->. destruct p; vm_compute in H; discriminate H.
  - intros H. unfold getPillarInstruction.
    rewrite (eqb_value_false _ _ (H EDUCATIONAL)),
      (eqb_value_false _ _ (H PROMOTIONAL)),
      (eqb_value_false _ _ (H INSPIRATIONAL)),
      (eqb_value_false _ _ (H ENTERTAINMENT)),
      (eqb_value_false _ _ (H BEHIND_SCENES)),
      (eqb_value_false _ _ (H COMMUNITY)).
    reflexivity.
  - intros p p' H. destruct p, p'; try reflexivity;
      vm_compute in H; discriminate H.
Qed.

(** X6: [getLanguageInstruction] never returns the empty string: whatever the
    value, the result is one of the three instructions, and it is the
    English one unless the value is that of Myanmar or Thai. *)
Theorem getLanguageInstruction_total (v : string) :
  getLanguageInstruction v <> ""
  /\ (exists l, getLanguageInstruction v = languageInstruction l)
  /\ (v <> Language_value MY -> v <> Language_value TH ->
      getLanguageInstruction v = languageInstruction EN).
Proof.
  unfold getLanguageInstruction.
  destruct (String.eqb_spec v (Language_value MY)) as [E1|N1].
  - repeat split; [discriminate | now exists MY | contradiction].
  - destruct (String.eqb_spec v (Language_value TH)) as [E2|N2].
    + repeat split; [discriminate | now exists TH | contradiction].
    + repeat split; [discriminate | now exists EN].
Qed.

Lemma getLanguageInstruction_total_witness :
  getLanguageInstruction "EN" = languageInstruction EN.
Proof.
  destruct (getLanguageInstruction_total "EN") as (_ & _ & H).
  apply H; discriminate.
Defined.

(* ================================================================= *)
(** ** The generation client and its caller *)

Section GenerationOutcomes.

Variable api :
  GenerateContentParameters -> Completion GenerateContentResponse.

(** X7: whatever the endpoint does, [generateCopy] either returns a text that
    is not empty, printing nothing, or prints the error and throws the one
    fixed error. *)
Theorem generateCopy_outcomes (request : ContentRequest) :
  (exists t, t <> ""
     /\ Gemini.generateCopy api request = ([], Normal t))
  \/ (exists error,
        api (Gemini.parametersFor request) = Throw error
        /\ Gemini.generateCopy api request
           = ([ConsoleError ["Gemini API Error:"; message error]],
              Throw (Error Gemini.failureMessage))).
Proof.
  unfold Gemini.generateCopy.
  destruct (api (Gemini.parametersFor request)) as [response | error].
  - left. unfold JS.or_else, JS.truthy.
    destruct (text response) as [t|].
    + destruct (String.eqb_spec t "") as [E|N]; simpl.
      * exists Gemini.fallbackText. split; [discriminate | reflexivity].
      * exists t. split; [exact N | reflexivity].
    + exists Gemini.fallbackText. split; [discriminate | reflexivity].
  - right. exists error. split; reflexivity.
Qed.

(** X8: [handleGenerate] once the call to the endpoint has settled (the
    code sets no timeout: up to then the state is the one its first half
    leaves, with [loading] true and no output).  It has then set [loading]
    to false and changed nothing of the form, the registry, the selection
    or the theme.  When the endpoint answered, the output is the text
    [generateCopy] returned, the output region is shown, and the only
    effect is one scroll scheduled after 100 ms: nothing is printed or
    alerted.  When it threw, the effects are exactly the two console errors
    and one alert, no scroll of any delay is scheduled, and the output is
    null, whatever was shown before. *)
Theorem handleGenerate_outcome (s : AppState) :
  let trace := fst (handleGenerate api s) in
  let s' := snd (handleGenerate api s) in
  loading (generateStart s) = true
  /\ generatedContent (generateStart s) = None
  /\ s' = snd (generateSettle (snd (Gemini.generateCopy api (formData s)))
                              (generateStart s))
  /\ loading s' = false
  /\ formData s' = formData s
  /\ brands s' = brands s
  /\ selectedBrandId s' = selectedBrandId s
  /\ isDarkMode s' = isDarkMode s
  /\ match api (Gemini.parametersFor (formData s)) with
     | Normal response =>
         generatedContent s'
         = Some (JS.or_else (text response) Gemini.fallbackText)
         /\ showsOutput s' = true
         /\ trace = [ScrollToResult 100]
         /\ alerts trace = []
     | Throw error =>
         generatedContent s' = None
         /\ showsOutput s' = false
         /\ trace = [ConsoleError ["Gemini API Error:"; message error];
                     ConsoleError [Gemini.failureMessage];
                     Alert "Something went wrong. Please try again."]
         /\ alerts trace = ["Something went wrong. Please try again."]
         /\ (forall delay, ~ In (ScrollToResult delay) trace)
     end.
Proof.
  intros trace s'. subst trace s'.
  unfold handleGenerate, Gemini.generateCopy, showsOutput.
  destruct (api (Gemini.parametersFor (formData s))) as [response | error].
  - repeat split. simpl. unfold JS.or_else.
    destruct (text response) as [t|]; [|reflexivity].
    destruct (JS.truthy t) eqn:Et; [exact Et | reflexivity].
  - repeat split. simpl. intros delay [H | [H | [H | []]]]; discriminate H.
Qed.

End GenerationOutcomes.

(** X9: the handler is its two halves around the [await]; when two submissions
    overlap, the first response to settle already ends the loading state
    while the second is still awaited, a second response with a text
    replaces the output whatever the first one was, and a second response
    that fails leaves the output of the first where it is. *)
Theorem overlapping_submissions
    (s : AppState) (first second : Completion string) :
  (forall api,
     handleGenerate api s
     = (fst (Gemini.generateCopy api (formData s))
          ++ fst (generateSettle (snd (Gemini.generateCopy api (formData s)))
                                 (generateStart s)),
        snd (generateSettle (snd (Gemini.generateCopy api (formData s)))
                            (generateStart s)))%list)
  /\ let pending := generateStart (generateStart s) in
     let afterFirst := snd (generateSettle first pending) in
     let afterSecond := snd (generateSettle second afterFirst) in
     loading pending = true
     /\ generatedContent pending = None
     /\ loading afterFirst = false
     /\ loading afterSecond = false
     /\ (forall text, second = Normal text ->
           generatedContent afterSecond = Some text)
     /\ (forall error, second = Throw error ->
           generatedContent afterSecond = generatedContent afterFirst)
     /\ formData afterSecond = formData s.
Proof.
  split.
  - intros api. unfold handleGenerate.
    destruct (Gemini.generateCopy api (formData s)) as [printed [t|e]];
      reflexivity.
  - simpl. repeat split.
    + destruct first; reflexivity.
    + destruct second; reflexivity.
    + intros t ->. reflexivity.
    + intros e ->. reflexivity.
    + destruct first, second; reflexivity.
Qed.

Lemma overlapping_submissions_witness :
  generatedContent
    (snd (generateSettle (Normal "second")
            (snd (generateSettle (Normal "first")
                    (generateStart (generateStart initialState))))))
  = Some "second"
  /\ generatedContent
       (snd (generateSettle (Throw (Error Gemini.failureMessage))
               (snd (generateSettle (Normal "first")
                       (generateStart (generateStart initialState))))))
     = Some "first".
Proof.
  split.
  - destruct (overlapping_submissions initialState (Normal "first")
                (Normal "second")) as (_ & _ & _ & _ & _ & H & _).
    apply (H "second" eq_refl).
  - destruct (overlapping_submissions initialState (Normal "first")
                (Throw (Error Gemini.failureMessage)))
      as (_ & _ & _ & _ & _ & _ & H & _).
    apply (H (Error Gemini.failureMessage) eq_refl).
Defined.

Lemma getFrameworkInstruction_default_witness :
  getFrameworkInstruction "aida" = "".
Proof.
  apply (getFrameworkInstruction_default "aida").
  intros fw. destruct fw; discriminate.
Defined.

Lemma getPillarInstruction_default_witness :
  getPillarInstruction "Behind the Scenes" = "".
Proof.
  apply (getPillarInstruction_default "Behind the Scenes").
  intros p. destruct p; discriminate.
Defined.

(* ================================================================= *)
(** ** The brand registry *)

Section Registry.

Lemma findBrand_app (sel : string) (l l' : list BrandProfile) :
  findBrand sel (l ++ l')
  = match findBrand sel l with
    | Some b => Some b
    | None => findBrand sel l'
    end.
Proof.
  unfold findBrand. induction l as [|a l IH]; simpl; [reflexivity|].
  destruct (id a =? sel); [reflexivity | exact IH].
Qed.

Lemma findBrand_none (sel : string) (l : list BrandProfile) :
  (forall b, In b l -> id b <> sel) -> findBrand sel l = None.
Proof.
  unfold findBrand. induction l as [|a l IH]; intros H; simpl; [reflexivity|].
  rewrite (eqb_value_false _ _ (H a (or_introl eq_refl))).
  apply IH. intros b Hb. apply H. now right.
Qed.

Lemma findBrand_some (sel : string) (l : list BrandProfile) (b : BrandProfile) :
  findBrand sel l = Some b -> In b l /\ id b = sel.
Proof.
  intros H. apply find_some in H. destruct H as [Hin Hid].
  apply String.eqb_eq in Hid. now split.
Qed.

Lemma findBrand_exists (sel : string) (l : list BrandProfile) :
  (exists b, In b l /\ id b = sel) -> exists b, findBrand sel l = Some b.
Proof.
  intros (b & Hin & Hid). destruct (findBrand sel l) as [c|] eqn:E.
  - now exists c.
  - exfalso. apply (find_none _ _ E) in Hin. rewrite Hid in Hin.
    now rewrite String.eqb_refl in Hin.
Qed.

Lemma findBrand_filter (sel brandId : string) (l : list BrandProfile) :
  sel <> brandId ->
  findBrand sel (filter (fun b => negb (id b =? brandId)) l) = findBrand sel l.
Proof.
  intros Hne. unfold findBrand. induction l as [|a l IH]; [reflexivity|].
  simpl. destruct (String.eqb_spec (id a) brandId) as [E|N]; simpl.
  - destruct (String.eqb_spec (id a) sel) as [E'|_]; [congruence | exact IH].
  - destruct (id a =? sel); [reflexivity | exact IH].
Qed.

Lemma filter_fresh (brandId : string) (l : list BrandProfile) :
  (forall b, In b l -> id b <> brandId) ->
  filter (fun b => negb (id b =? brandId)) l = l.
Proof.
  induction l as [|a l IH]; intros H; simpl; [reflexivity|].
  rewrite (eqb_value_false _ _ (H a (or_introl eq_refl))). simpl.
  f_equal. apply IH. intros b Hb. apply H. now right.
Qed.

Lemma truthy_true (v : string) : v <> "" -> JS.truthy v = true.
Proof.
  intros H. unfold JS.truthy. now rewrite (eqb_value_false _ _ H).
Qed.

Lemma findBrand_fresh (l : list BrandProfile) (newBrand : BrandProfile) :
  (forall b, In b l -> id b <> id newBrand) ->
  findBrand (id newBrand) (l ++ [newBrand]) = Some newBrand.
Proof.
  intros Hfresh. rewrite findBrand_app, (findBrand_none _ _ Hfresh).
  unfold findBrand. simpl. now rewrite String.eqb_refl.
Qed.

(** X10: adding a brand whose id is not empty and not yet in the list appends it
    at the end of the list, selects it and fills the form from it: tone,
    target audience and brand object are the new brand's, the rest of the
    form is kept. *)
Theorem add_brand_fresh (s : AppState) (newBrand : BrandProfile) :
  id newBrand <> "" ->
  (forall b, In b (brands s) -> id b <> id newBrand) ->
  let s' := update (AddBrand newBrand) s in
  brands s' = (brands s ++ [newBrand])%list
  /\ selectedBrandId s' = Some (id newBrand)
  /\ selectedBrand s' = Some newBrand
  /\ brand (formData s') = Some newBrand
  /\ tone (formData s') = defaultTone newBrand
  /\ targetAudience (formData s') = Some (defaultAudience newBrand)
  /\ topic (formData s') = topic (formData s)
  /\ description (formData s') = description (formData s)
  /\ framework (formData s') = framework (formData s)
  /\ pillar (formData s') = pillar (formData s)
  /\ language (formData s') = language (formData s).
Proof.
  intros Hne Hfresh s'.
  pose proof (findBrand_fresh (brands s) newBrand Hfresh) as F.
  unfold s', update, selectedBrand. simpl.
  unfold brandEffect. simpl. rewrite (truthy_true _ Hne), F. simpl.
  rewrite F. repeat split.
Qed.

Lemma add_brand_fresh_witness :
  brands (update (AddBrand studio) initialState)
  = (DEFAULT_BRANDS ++ [studio])%list
  /\ brand (formData (update (AddBrand studio) initialState)) = Some studio
  /\ tone (formData (update (AddBrand studio) initialState)) = EMOTIONAL.
Proof.
  assert (Hne : id studio <> "") by discriminate.
  assert (Hfresh : forall b, In b (brands initialState) ->
                             id b <> id studio).
  { intros b [<- | [<- | []]]; discriminate. }
  destruct (add_brand_fresh initialState studio Hne Hfresh)
    as (H1 & _ & _ & H2 & H3 & _).
  split; [exact H1|]. split; [exact H2 | exact H3].
Defined.

(** X11: ids are not checked for uniqueness: a brand added under an id the list
    already has is appended and its id selected, but the lookup finds the
    older brand, so the form is filled from the older brand and the older
    brand is the one shown as selected. *)
Theorem add_brand_duplicate (s : AppState) (newBrand older : BrandProfile) :
  id newBrand <> "" ->
  findBrand (id newBrand) (brands s) = Some older ->
  let s' := update (AddBrand newBrand) s in
  brands s' = (brands s ++ [newBrand])%list
  /\ selectedBrandId s' = Some (id newBrand)
  /\ selectedBrand s' = Some older
  /\ brand (formData s') = Some older
  /\ tone (formData s') = defaultTone older
  /\ targetAudience (formData s') = Some (defaultAudience older).
Proof.
  intros Hne Hold s'.
  assert (F : findBrand (id newBrand) (brands s ++ [newBrand]) = Some older)
    by (now rewrite findBrand_app, Hold).
  unfold s', update, selectedBrand. simpl.
  unfold brandEffect. simpl. rewrite (truthy_true _ Hne), F. simpl.
  rewrite F. repeat split.
Qed.

Lemma add_brand_duplicate_witness :
  brand (formData (update (AddBrand twinBrand) initialState)) = Some techNova
  /\ tone (formData (update (AddBrand twinBrand) initialState)) = WITTY.
Proof.
  assert (Hne : id twinBrand <> "") by discriminate.
  destruct (add_brand_duplicate initialState twinBrand techNova Hne eq_refl)
    as (_ & _ & _ & H1 & H2 & _).
  split; [exact H1 | exact H2].
Defined.

(** X12: [handleDeleteBrand] removes exactly the brands of the given id, keeping
    the others in their order; when no brand has that id the list is
    unchanged; the selection is kept unless it is that id; the form is not
    touched by the handler. *)
Theorem delete_brand_exact (s : AppState) (brandId : string) :
  let s' := handleDeleteBrand brandId s in
  (forall b, In b (brands s') <-> In b (brands s) /\ id b <> brandId)
  /\ brands s' = filter (fun b => negb (id b =? brandId)) (brands s)
  /\ ((forall b, In b (brands s) -> id b <> brandId) ->
      brands s' = brands s)
  /\ (selectedBrandId s <> Some brandId ->
      selectedBrandId s' = selectedBrandId s)
  /\ formData s' = formData s.
Proof.
  intros s'.
  assert (B : brands s' = filter (fun b => negb (id b =? brandId)) (brands s)).
  { unfold s', handleDeleteBrand.
    destruct (JS.strict_eq (selectedBrandId s) brandId); reflexivity. }
  repeat split.
  - rewrite B in H. apply filter_In in H. tauto.
  - rewrite B in H. now apply (filter_without brandId (brands s)).
  - intros [Hin Hid]. rewrite B. apply filter_In. split; [exact Hin|].
    now rewrite (eqb_value_false _ _ Hid).
  - exact B.
  - intros H. rewrite B. now apply filter_fresh.
  - intros H. unfold s', handleDeleteBrand, JS.strict_eq.
    destruct (selectedBrandId s) as [sel|] eqn:E; [|exact E].
    destruct (String.eqb_spec sel brandId) as [->|_];
      [now destruct H | exact E].
  - unfold s', handleDeleteBrand.
    destruct (JS.strict_eq (selectedBrandId s) brandId); reflexivity.
Qed.

Lemma delete_brand_exact_witness :
  brands (handleDeleteBrand "brand-3" techNovaSelected) = DEFAULT_BRANDS
  /\ selectedBrandId (handleDeleteBrand "brand-3" techNovaSelected)
     = Some "demo-1".
Proof.
  destruct (delete_brand_exact techNovaSelected "brand-3")
    as (_ & _ & H1 & H2 & _).
  split.
  - apply H1. intros b [<- | [<- | []]]; discriminate.
  - apply H2. discriminate.
Defined.



(** X14: adding a brand under an id the list does not have and deleting it
    again gives back the list as it was; the selection is empty afterwards,
    whatever was selected before, and no brand is attached to the form,
    but the tone the added brand had put into the form stays. *)
Theorem add_then_delete (s : AppState) (newBrand : BrandProfile) :
  (forall b, In b (brands s) -> id b <> id newBrand) ->
  let s' := update (DeleteBrand (id newBrand)) (update (AddBrand newBrand) s) in
  brands s' = brands s
  /\ selectedBrandId s' = None
  /\ brand (formData s') = None
  /\ (id newBrand <> "" -> tone (formData s') = defaultTone newBrand).
Proof.
  intros Hfresh s'.
  assert (D : forall t,
    selectedBrandId t = Some (id newBrand) ->
    update (DeleteBrand (id newBrand)) t
    = brandEffect
        (setSelectedBrandId None
           (setBrands (filter (fun b => negb (id b =? id newBrand))) t))).
  { intros t Ht. unfold update. cbn [handle replacesBrands orb].
    unfold handleDeleteBrand, JS.strict_eq. rewrite Ht.
    now rewrite String.eqb_refl. }
  assert (Sel : selectedBrandId (update (AddBrand newBrand) s)
                = Some (id newBrand)).
  { unfold update. cbn [handle replacesBrands orb]. unfold brandEffect.
    simpl. destruct (JS.truthy (id newBrand)); [|reflexivity].
    destruct (findBrand _ _); reflexivity. }
  assert (Br : brands (update (AddBrand newBrand) s)
               = (brands s ++ [newBrand])%list).
  { unfold update. cbn [handle replacesBrands orb]. unfold brandEffect.
    simpl. destruct (JS.truthy (id newBrand)); [|reflexivity].
    destruct (findBrand _ _); reflexivity. }
  unfold s'. rewrite (D _ Sel). unfold brandEffect. simpl. rewrite Br.
  repeat split.
  - rewrite filter_app. simpl. rewrite String.eqb_refl. simpl.
    rewrite app_nil_r. now apply filter_fresh.
  - intros Hne.
    unfold update. cbn [handle replacesBrands orb]. unfold brandEffect.
    simpl. rewrite (truthy_true _ Hne).
    rewrite (findBrand_fresh (brands s) newBrand Hfresh). reflexivity.
Qed.

Lemma add_then_delete_witness :
  brands (update (DeleteBrand (id studio))
            (update (AddBrand studio) techNovaSelected))
  = DEFAULT_BRANDS
  /\ selectedBrandId (update (DeleteBrand (id studio))
                        (update (AddBrand studio) techNovaSelected))
     = None.
Proof.
  assert (Hfresh : forall b, In b (brands techNovaSelected) ->
                             id b <> id studio).
  { intros b [<- | [<- | []]]; discriminate. }
  destruct (add_then_delete techNovaSelected studio Hfresh)
    as (H1 & H2 & _).
  split; [exact H1 | exact H2].
Defined.

End Registry.

(* ================================================================= *)
(** ** The brand of the request and the selection *)

Section Selection.

Lemma same_value_eq (a b : option string) :
  JS.same_value a b = true -> a = b.
Proof.
  destruct a as [x|], b as [y|]; simpl; intros H; try discriminate H.
  - apply String.eqb_eq in H. now subst.
  - reflexivity.
Qed.

(** What one run of the brand effect leaves behind: the registry and the
    selection are untouched, and the request carries the brand of the
    selection, unless the selection names no brand of the list, in which
    case nothing changes. *)
Lemma brandEffect_spec (t : AppState) :
  brands (brandEffect t) = brands t
  /\ selectedBrandId (brandEffect t) = selectedBrandId t
  /\ (brand (formData (brandEffect t)) = attachedBrand t
      \/ (JS.truthy_opt (selectedBrandId t) = true
          /\ selectedBrand t = None /\ brandEffect t = t)).
Proof.
  unfold brandEffect, attachedBrand, selectedBrand, JS.truthy_opt.
  destruct (selectedBrandId t) as [sel|] eqn:Es.
  - destruct (JS.truthy sel) eqn:Et.
    + destruct (findBrand sel (brands t)) as [b|] eqn:Ef.
      * simpl. rewrite Es. repeat split. now left.
      * rewrite Es. repeat split. now right.
    + simpl. rewrite Es. repeat split. now left.
  - simpl. rewrite Es. repeat split. now left.
Qed.

Lemma attachedBrand_ext (s t : AppState) :
  brands t = brands s -> selectedBrandId t = selectedBrandId s ->
  attachedBrand t = attachedBrand s.
Proof.
  intros Hb Hs. unfold attachedBrand, selectedBrand. now rewrite Hb, Hs.
Qed.

Lemma update_keeps_attachment (s : AppState) (e : Event) :
  brand (formData s) = attachedBrand s ->
  offered s e ->
  brand (formData (update e s)) = attachedBrand (update e s).
Proof.
  intros Inv Hoff. unfold update.
  destruct (replacesBrands e
            || negb (JS.same_value (selectedBrandId s)
                                   (selectedBrandId (handle e s)))) eqn:Run.
  - destruct (brandEffect_spec (handle e s)) as (Hb & Hs & [H | (Ht & Hn & E)]).
    + rewrite H. symmetry. now apply attachedBrand_ext.
    + rewrite E. destruct e as [[sel|] | nb | brandId | fw | rq |];
        simpl in Run; try (rewrite same_value_refl in Run; discriminate Run).
      * (* a listed brand is selected: the lookup cannot fail *)
        exfalso. unfold selectedBrand in Hn. cbn in Ht, Hn.
        assert (Hne : sel <> "").
        { intros ->. cbv in Ht. discriminate Ht. }
        destruct (findBrand_exists sel (brands s) (Hoff Hne)) as [b Hb'].
        unfold findBrand in *. congruence.
      * cbv in Ht. discriminate Ht.
      * (* the added brand is in the list *)
        exfalso. unfold selectedBrand in Hn. cbn in Hn.
        destruct (findBrand_exists (id nb) (brands s ++ [nb])%list) as [b Hb'].
        { exists nb. split; [apply in_or_app; right; now left | reflexivity]. }
        unfold findBrand in *. congruence.
      * (* another brand is deleted: the lookup is as before *)
        cbn [handle] in *. clear E Hb Hs Run Hoff.
        unfold attachedBrand, selectedBrand in *.
        unfold handleDeleteBrand, JS.strict_eq in *.
        destruct (selectedBrandId s) as [sel|] eqn:Es.
        -- destruct (String.eqb_spec sel brandId) as [->|Hne].
           ++ cbn in Ht. discriminate Ht.
           ++ cbn in Ht, Hn |- *. rewrite Es in *. cbn in Ht, Hn |- *.
              rewrite Hn. cbn in Inv. rewrite Ht in Inv |- *. rewrite Inv.
              rewrite <- (findBrand_filter sel brandId (brands s) Hne).
              exact Hn.
        -- cbn in Ht. rewrite Es in Ht. discriminate Ht.
  - apply orb_false_iff in Run. destruct Run as [Hr Hs].
    apply negb_false_iff, same_value_eq in Hs.
    assert (Hb : brands (handle e s) = brands s).
    { destruct e; try discriminate Hr; reflexivity. }
    rewrite (attachedBrand_ext s (handle e s) Hb (eq_sym Hs)), <- Inv.
    destruct e; try discriminate Hr; try reflexivity.
    exact Hoff.
Qed.

(** X15: along every sequence of updates in which the user selects only brands
    of the list (or none) and form edits keep the brand object, the brand
    attached to the request is the brand found for the selection: none
    when the selection is null or empty, the first brand of the list with
    the selected id otherwise. *)
Theorem brand_follows_selection (s : AppState) (events : list Event) :
  brand (formData s) = attachedBrand s ->
  admissible events s ->
  brand (formData (run events s)) = attachedBrand (run events s).
Proof.
  revert s. induction events as [|e events IH]; intros s Inv Hadm.
  - exact Inv.
  - destruct Hadm as [Hoff Hadm]. simpl. apply IH; [|exact Hadm].
    now apply update_keeps_attachment.
Qed.

Lemma brand_follows_selection_witness :
  brand (formData
           (run [AddBrand studio; SelectBrand (Some "demo-2");
                 SelectFramework BAB; DeleteBrand "demo-1"; Clear]
                initialState))
  = Some (nth 1 DEFAULT_BRANDS studio).
Proof.
  rewrite (brand_follows_selection initialState
             [AddBrand studio; SelectBrand (Some "demo-2");
              SelectFramework BAB; DeleteBrand "demo-1"; Clear]).
  - reflexivity.
  - reflexivity.
  - simpl. repeat split. intros _.
    exists (nth 1 DEFAULT_BRANDS studio). split; [simpl; tauto | reflexivity].
Defined.

(** X16: deselecting (setting [selectedBrandId] to null while a brand is
    selected) detaches the brand object from the request and changes nothing
    else: the tone and the target audience the brand had set stay, and the
    registry is untouched. *)
Theorem deselect_brand (s : AppState) (sel : string) :
  selectedBrandId s = Some sel ->
  let s' := update (SelectBrand None) s in
  selectedBrandId s' = None
  /\ brand (formData s') = None
  /\ tone (formData s') = tone (formData s)
  /\ targetAudience (formData s') = targetAudience (formData s)
  /\ topic (formData s') = topic (formData s)
  /\ description (formData s') = description (formData s)
  /\ framework (formData s') = framework (formData s)
  /\ pillar (formData s') = pillar (formData s)
  /\ language (formData s') = language (formData s)
  /\ brands s' = brands s
  /\ generatedContent s' = generatedContent s.
Proof.
  intros Hsel s'. unfold s', update. simpl. rewrite Hsel. simpl.
  repeat split.
Qed.

Lemma deselect_brand_witness :
  brand (formData (update (SelectBrand None) techNovaSelected)) = None
  /\ tone (formData (update (SelectBrand None) techNovaSelected)) = WITTY.
Proof.
  destruct (deselect_brand techNovaSelected "demo-1" eq_refl)
    as (_ & H1 & H2 & _).
  split; [exact H1 | exact H2].
Defined.

(** X17: running the brand effect a second time changes nothing: the effect
    writes only values that it does not read back differently. *)
Theorem brandEffect_idempotent (s : AppState) :
  brandEffect (brandEffect s) = brandEffect s.
Proof.
  unfold brandEffect.
  destruct (selectedBrandId s) as [sel|] eqn:Es.
  - destruct (JS.truthy sel) eqn:Et.
    + destruct (findBrand sel (brands s)) as [b|] eqn:Ef.
      * simpl. rewrite Es, Et, Ef. reflexivity.
      * rewrite Es, Et, Ef. reflexivity.
    + simpl. rewrite Es, Et. reflexivity.
  - simpl. rewrite Es. reflexivity.
Qed.

End Selection.
